(** * ny-plumber-voice-agent: the tool set, the lead store and the call-session
    bridge, embedded from [src/server.ts] and [src/leadStore.ts].

    JavaScript objects are finite maps from property names to values
    ([gmap string value]); the two JSONL files hold one JSON document per
    appended line; side effects (file system, messaging gateway, voice
    backend) are threaded through an explicit [World] by a small
    state-and-exception monad in which a thrown error keeps the effects
    performed before it, as in JavaScript. *)

From Stdlib Require Import ZArith String Ascii.
From stdpp Require Import gmap strings list fin_maps pretty.

Set Warnings "-register-all".
Local Open Scope string_scope.
Local Open Scope list_scope.
Local Open Scope stdpp_scope.

(* ===================================================================== *)
(** ** JavaScript values, strings and JSON documents *)
(* ===================================================================== *)

Module Js.

(** A JavaScript number, as far as this program looks at one: [NaN] or an
    integer (the only numbers the program itself writes are integers). *)
Inductive number := NaN | Int (z : Z).

(** Runtime values.  [VError] is an instance of [Error] (name, message);
    [VObj] is a plain object, [VArr] an array. *)
Inductive value :=
| VUndefined
| VNull
| VBool (b : bool)
| VNum (n : number)
| VStr (s : string)
| VArr (l : list value)
| VError (name message : string)
| VObj (m : gmap string value).

(** JSON documents: what [JSON.stringify] emits and a reader of a line of
    the store gets back. *)
Inductive json :=
| JNull
| JBool (b : bool)
| JNum (z : Z)
| JStr (s : string)
| JArr (l : list json)
| JObj (m : gmap string json).

(** ToBoolean. *)
Definition truthy (v : value) : bool :=
  match v with
  | VUndefined | VNull => false
  | VBool b => b
  | VNum NaN => false
  | VNum (Int z) => negb (Z.eqb z 0)
  | VStr s => negb (String.eqb s "")
  | VArr _ | VError _ _ | VObj _ => true
  end.

(** [a || b]. *)
Definition or_else (a b : value) : value := if truthy a then a else b.

(** [s.startsWith(p)], [s.length], [s.slice(0, n)] on strings. *)
Definition startsWith (s p : string) : bool := String.prefix p s.
Definition str_length (s : string) : nat := String.length s.
Definition slice (s : string) (from to : nat) : string :=
  String.substring from (to - from) s.

(** The line feed of a template literal's [\n]. *)
Definition LF : string := String (Ascii.ascii_of_nat 10) EmptyString.

(** [evt?.type]: [undefined] on [null] and [undefined], the own property
    of a plain object, and [undefined] where no such property exists. *)
Definition optional_type (evt : value) : value :=
  match evt with
  | VObj m => default VUndefined (m !! "type")
  | _ => VUndefined
  end.

(** [Error.prototype.toString]. *)
Definition error_toString (name message : string) : string :=
  if String.eqb name "" then message
  else if String.eqb message "" then name
  else name +:+ ": " +:+ message.

(** [String(v)] and the conversion a template literal applies. *)
Fixpoint String_ (v : value) : string :=
  match v with
  | VUndefined => "undefined"
  | VNull => "null"
  | VBool true => "true"
  | VBool false => "false"
  | VNum NaN => "NaN"
  | VNum (Int z) => pretty z
  | VStr s => s
  | VArr l =>
      (fix join (xs : list value) : string :=
         let elem (x : value) : string :=
           match x with
           | VUndefined | VNull => ""
           | _ => String_ x
           end in
         match xs with
         | [] => ""
         | [x] => elem x
         | x :: rest => elem x +:+ "," +:+ join rest
         end) l
  | VError name message => error_toString name message
  | VObj _ => "[object Object]"
  end.

(** [JSON.stringify]: [None] is JavaScript's [undefined] result.  A
    property whose value is [undefined] is left out of an object; in an
    array it becomes [null]; [NaN] becomes [null]; an [Error] has no
    enumerable own property. *)
Fixpoint JSON_stringify (v : value) : option json :=
  match v with
  | VUndefined => None
  | VNull => Some JNull
  | VBool b => Some (JBool b)
  | VNum NaN => Some JNull
  | VNum (Int z) => Some (JNum z)
  | VStr s => Some (JStr s)
  | VArr l => Some (JArr (map (fun x => default JNull (JSON_stringify x)) l))
  | VError _ _ => Some (JObj ∅)
  | VObj m => Some (JObj (omap JSON_stringify m))
  end.

(** [JSON.stringify] of an object, which always yields a document. *)
Definition stringify_object (o : gmap string value) : json :=
  JObj (omap JSON_stringify o).

(** An object literal [{ ...src, <rest> }] evaluated left to right: each
    later property definition replaces an earlier one of the same name. *)
Definition spread (src dst : gmap string value) : gmap string value :=
  src ∪ dst.

(** Reading a field of a document of the store. *)
Definition field (k : string) (j : json) : option json :=
  match j with
  | JObj m => m !! k
  | _ => None
  end.

End Js.
Export Js.

(* ===================================================================== *)
(** ** The world the program acts on *)
(* ===================================================================== *)

Module Host.

(** Paths relative to [process.cwd()], one segment per element. *)
Definition path := list string.

Definition path_join (dir : path) (name : string) : path := dir ++ [name].
Definition parent (p : path) : path := removelast p.

(** A file holds the chunks appended to it; every chunk this program
    appends is one document followed by a line feed. *)
Inductive node := Dir | File (lines : list json).

(** The client built by [twilio(sid, token)]. *)
Record TwilioClient := twilio { accountSid : string; authToken : string }.

(** The argument of [messages.create]. *)
Record Sms := mkSms { from : string; to : string; body : string }.

(** What the messaging provider answers: a message with its [sid], or a
    rejection (the promise rejects with that error). *)
Inductive reply := Accepted (sid : string) | Rejected (err : string).

(** Effects leaving the process, in the order they happen. *)
Inductive effect :=
| FsMkdir (p : path)
| FsWrite (p : path) (content : list json)
| FsAppend (p : path) (line : json)
| SmsCreate (c : TwilioClient) (m : Sms)
| SessionConnect (apiKey : string).

Record World := mkWorld {
  fs : gmap path node;
  disk_faulty : bool;      (* every write to the disk fails (EIO, ENOSPC, EACCES) *)
  uuid_draws : nat;        (* calls of randomUUID() so far *)
  clock_reads : nat;       (* evaluations of new Date() so far *)
  history : list effect
}.

(** What the program cannot decide: the identifiers and instants it is
    handed, the provider's and the voice backend's answers, and the
    conversion [Number(s)] of a string. *)
Class Runtime := {
  randomUUID_at : nat -> string;
  toISOString_at : nat -> string;
  Number_of_string : string -> number;
  messages_create_at : nat -> Sms -> reply;
  connect_at : nat -> option string
}.

(** A JavaScript computation: it returns or throws, and either way leaves
    a world behind. *)
Inductive outcome (A : Type) := Ok (a : A) | Throw (e : string).
Arguments Ok {A} a.
Arguments Throw {A} e.

Definition M (A : Type) : Type := World -> outcome A * World.

#[global] Instance M_ret : MRet M := fun A a w => (Ok a, w).
#[global] Instance M_bind : MBind M := fun A B f m w =>
  match m w with
  | (Ok a, w') => f a w'
  | (Throw e, w') => (Throw e, w')
  end.

Definition throw {A} (e : string) : M A := fun w => (Throw e, w).

Definition log_effect (e : effect) (w : World) : World :=
  mkWorld (fs w) (disk_faulty w) (uuid_draws w) (clock_reads w) (history w ++ [e]).

Definition set_fs (f : gmap path node) (w : World) : World :=
  mkWorld f (disk_faulty w) (uuid_draws w) (clock_reads w) (history w).

(** The projections of a history the claims speak about. *)
Definition appended_to (p : path) (h : list effect) : list json :=
  omap (fun e => match e with
                 | FsAppend q line => if decide (q = p) then Some line else None
                 | _ => None
                 end) h.

Definition sms_sent (h : list effect) : list Sms :=
  omap (fun e => match e with SmsCreate _ m => Some m | _ => None end) h.

Definition connects (h : list effect) : list string :=
  omap (fun e => match e with SessionConnect k => Some k | _ => None end) h.

(** *** node:fs *)

Definition is_dir (p : path) (w : World) : bool :=
  match p with
  | [] => true
  | _ => match fs w !! p with Some Dir => true | _ => false end
  end.

Definition exists_in (w : World) (p : path) : bool :=
  match p with
  | [] => true
  | _ => match fs w !! p with Some _ => true | None => false end
  end.

Definition existsSync (p : path) : M bool := fun w => (Ok (exists_in w p), w).

(** [fs.mkdirSync(p, { recursive: true })] for a directory directly under
    an existing one, which is where this program calls it. *)
Definition mkdirSync (p : path) : M unit := fun w =>
  if disk_faulty w then (Throw "EIO: mkdir", w)
  else if negb (is_dir (parent p) w) then (Throw "ENOTDIR: mkdir", w)
  else match fs w !! p with
       | Some (File _) => (Throw "EEXIST: mkdir", w)
       | Some Dir => (Ok tt, log_effect (FsMkdir p) w)
       | None => (Ok tt, log_effect (FsMkdir p) (set_fs (<[p := Dir]> (fs w)) w))
       end.

Definition writeFileSync (p : path) (content : list json) : M unit := fun w =>
  if disk_faulty w then (Throw "EIO: open", w)
  else if negb (is_dir (parent p) w) then (Throw "ENOENT: open", w)
  else match fs w !! p with
       | Some Dir => (Throw "EISDIR: open", w)
       | _ => (Ok tt, log_effect (FsWrite p content)
                        (set_fs (<[p := File content]> (fs w)) w))
       end.

Definition appendFileSync (p : path) (line : json) : M unit := fun w =>
  if disk_faulty w then (Throw "EIO: open", w)
  else if negb (is_dir (parent p) w) then (Throw "ENOENT: open", w)
  else match fs w !! p with
       | Some Dir => (Throw "EISDIR: open", w)
       | Some (File old) =>
           (Ok tt, log_effect (FsAppend p line)
                     (set_fs (<[p := File (old ++ [line])]> (fs w)) w))
       | None =>
           (Ok tt, log_effect (FsAppend p line)
                     (set_fs (<[p := File [line]]> (fs w)) w))
       end.

(** Reading a file back, for the claims that speak of a reader. *)
Definition read_lines (p : path) (w : World) : list json :=
  match fs w !! p with
  | Some (File ls) => ls
  | _ => []
  end.

Section WithRuntime.
Context `{Runtime}.

(** [randomUUID()]. *)
Definition randomUUID : M string := fun w =>
  (Ok (randomUUID_at (uuid_draws w)),
   mkWorld (fs w) (disk_faulty w) (S (uuid_draws w)) (clock_reads w) (history w)).

(** [new Date().toISOString()]. *)
Definition now_iso : M string := fun w =>
  (Ok (toISOString_at (clock_reads w)),
   mkWorld (fs w) (disk_faulty w) (uuid_draws w) (S (clock_reads w)) (history w)).

(** [await client.messages.create(m)], resolving to the message's sid. *)
Definition messages_create (c : TwilioClient) (m : Sms) : M string := fun w =>
  let w' := log_effect (SmsCreate c m) w in
  match messages_create_at (length (sms_sent (history w))) m with
  | Accepted sid => (Ok sid, w')
  | Rejected err => (Throw err, w')
  end.

(** [await session.connect({ apiKey })]. *)
Definition backend_connect (apiKey : string) : M unit := fun w =>
  let w' := log_effect (SessionConnect apiKey) w in
  match connect_at (length (connects (history w))) with
  | None => (Ok tt, w')
  | Some err => (Throw err, w')
  end.
End WithRuntime.

End Host.
Export Host.

(* ===================================================================== *)
(** ** leadStore.ts *)
(* ===================================================================== *)

Module LeadStore.
Section WithRuntime.
Context `{Runtime}.

Definition DATA_DIR : path := path_join [] "data".
Definition LEADS_FILE : path := path_join DATA_DIR "leads.jsonl".
Definition EVENTS_FILE : path := path_join DATA_DIR "events.jsonl".

Definition ensureDataDir : M unit :=
  d ← existsSync DATA_DIR;
  (if negb d then mkdirSync DATA_DIR else mret tt);;
  f ← existsSync LEADS_FILE;
  (if negb f then writeFileSync LEADS_FILE [] else mret tt).

Definition appendLead (lead : gmap string value) : M unit :=
  ensureDataDir;;
  appendFileSync LEADS_FILE (stringify_object lead).

Definition appendEvent (event : gmap string value) : M unit :=
  ensureDataDir;;
  ts ← now_iso;
  appendFileSync EVENTS_FILE
    (stringify_object (spread event {[ "ts" := VStr ts ]})).

End WithRuntime.
End LeadStore.
Export LeadStore.

(* ===================================================================== *)
(** ** The argument schemas (zod) *)
(* ===================================================================== *)

Module Zod.

(** The schema combinators [server.ts] uses: [z.string()] with an optional
    [.max(n)], [z.enum([...])], [.optional()], [.default(d)].
    ([.describe] only documents.) *)
Inductive ztype :=
| ZString (max : option nat)
| ZEnum (options : list string)
| ZOptional (t : ztype)
| ZDefault (t : ztype) (d : value).

(** Parsing one value; [None] is a validation issue. *)
Fixpoint parse (t : ztype) (v : value) : option value :=
  match t with
  | ZString max =>
      match v with
      | VStr s =>
          match max with
          | Some n => if Nat.ltb n (str_length s) then None else Some (VStr s)
          | None => Some (VStr s)
          end
      | _ => None
      end
  | ZEnum options =>
      match v with
      | VStr s => if bool_decide (s ∈ options) then Some (VStr s) else None
      | _ => None
      end
  | ZOptional t' =>
      match v with
      | VUndefined => Some VUndefined
      | _ => parse t' v
      end
  | ZDefault t' d =>
      match v with
      | VUndefined => parse t' d
      | _ => parse t' v
      end
  end.

(** [z.object(shape)]: a list of keys with their schemas. *)
Definition shape := list (string * ztype).

Definition is_undefined (v : value) : bool :=
  match v with VUndefined => true | _ => false end.

(** One key of the shape: read [data[key]], parse it, and set the key in
    the result when the parsed value is defined or the key was in the
    data.  Keys of the data that the shape does not name are never
    looked at: the result holds none of them. *)
Fixpoint parse_keys (sh : shape) (data : gmap string value)
  : option (gmap string value) :=
  match sh with
  | [] => Some ∅
  | (k, t) :: rest =>
      match parse t (default VUndefined (data !! k)), parse_keys rest data with
      | Some r, Some out =>
          if is_undefined r && negb (bool_decide (is_Some (data !! k)))
          then Some out
          else Some (<[k := r]> out)
      | _, _ => None
      end
  end.

Definition parse_object (sh : shape) (data : value) : option (gmap string value) :=
  match data with
  | VObj m => parse_keys sh m
  | _ => None
  end.

End Zod.
Export Zod.

(* ===================================================================== *)
(** ** server.ts *)
(* ===================================================================== *)

Module Server.

(** *** Configuration, read once when the module is loaded *)

Record Config := mkConfig {
  PORT : number;
  PUBLIC_HOST : option string;
  BUSINESS_NAME : string;
  ONCALL_PHONE : string;
  OPENAI_API_KEY : string;
  TWILIO_ACCOUNT_SID : string;
  TWILIO_AUTH_TOKEN : string;
  TWILIO_FROM_NUMBER : string;
  twilioClient : option TwilioClient
}.

(** Loading the module either goes on, or ends the process through
    [process.exit(code)] after a line on the error console. *)
Inductive boot (A : Type) := Running (a : A) | Exited (code : Z) (stderr : string).
Arguments Running {A} a.
Arguments Exited {A} code stderr.

#[global] Instance boot_ret : MRet boot := fun A a => Running a.
#[global] Instance boot_bind : MBind boot := fun A B f m =>
  match m with
  | Running a => f a
  | Exited c e => Exited c e
  end.

(** [process.env[name] || d] on strings: an unset and an empty variable
    are both falsy. *)
Definition env_or (env : gmap string string) (name d : string) : string :=
  match env !! name with
  | Some v => if String.eqb v "" then d else v
  | None => d
  end.

Definition mustEnv (env : gmap string string) (name : string) : boot string :=
  match env !! name with
  | Some v =>
      if String.eqb v "" then Exited 1 ("Missing env var: " +:+ name)
      else Running v
  | None => Exited 1 ("Missing env var: " +:+ name)
  end.

Section WithRuntime.
Context `{Runtime}.

(** The module-level constants, in source order; [Running cfg] is the
    process arriving at [fastify.listen] with these constants. *)
Definition main (env : gmap string string) : boot Config :=
  let port :=
    match env !! "PORT" with
    | Some v => if String.eqb v "" then Int 5050 else Number_of_string v
    | None => Int 5050
    end in
  let public_host := env !! "PUBLIC_HOST" in
  let business_name := env_or env "BUSINESS_NAME" "NY Plumbing (Pilot)" in
  oncall ← mustEnv env "ONCALL_PHONE";
  api_key ← mustEnv env "OPENAI_API_KEY";
  let sid := env_or env "TWILIO_ACCOUNT_SID" "" in
  let token := env_or env "TWILIO_AUTH_TOKEN" "" in
  let from_number := env_or env "TWILIO_FROM_NUMBER" "" in
  let client :=
    if negb (String.eqb sid "") && negb (String.eqb token "")
    then Some (twilio sid token) else None in
  mret (mkConfig port public_host business_name oncall api_key
          sid token from_number client).

(** *** Tools *)

Inductive ToolResult := backgroundResult (text : string).

(** A tool as [tool({ name, parameters, execute })] declares it.  The
    arguments [execute] destructures have the types the schema infers;
    [decode] reads them off the parsed object. *)
Record Tool (A : Type) := mkTool {
  name : string;
  parameters : shape;
  decode : gmap string value -> option A;
  execute : A -> M ToolResult
}.
Arguments name {A} t.
Arguments parameters {A} t.
Arguments decode {A} t.
Arguments execute {A} t.

(** Calling a tool with the arguments the voice backend sent: they are
    parsed against [parameters]; only then does [execute] run. *)
Definition invoke {A} (t : Tool A) (raw : value) : M ToolResult :=
  match parse_object (parameters t) raw with
  | None => throw "Invalid JSON input for tool"
  | Some input =>
      match decode t input with
      | Some args => execute t args
      | None => throw "TypeError"
      end
  end.

Definition assertE164 (phone : string) : M unit :=
  if negb (startsWith phone "+") || Nat.ltb (str_length phone) 11
  then throw "Phone must be E.164 format like +15551234567"
  else mret tt.

Section Tools.
Variable cfg : Config.

(** create_lead *)

Definition createLead_parameters : shape :=
  [ ("callerPhone", ZOptional (ZString None));
    ("callerName", ZOptional (ZString None));
    ("serviceAddress", ZOptional (ZString None));
    ("issue", ZOptional (ZString None));
    ("urgency", ZDefault (ZEnum ["low"; "normal"; "emergency"]) (VStr "normal"));
    ("preferredTime", ZOptional (ZString None));
    ("notes", ZOptional (ZString None)) ].

Definition createLead_execute (input : gmap string value) : M ToolResult :=
  id ← randomUUID;
  createdAt ← now_iso;
  let lead :=
    <["source" := VStr "twilio_call"]>
      (spread input
         (<["businessName" := VStr (BUSINESS_NAME cfg)]>
            (<["createdAt" := VStr createdAt]>
               (<["id" := VStr id]> ∅)))) in
  appendLead lead;;
  mret (backgroundResult ("Lead stored with id " +:+ id)).

Definition createLeadTool : Tool (gmap string value) :=
  mkTool _ "create_lead" createLead_parameters Some createLead_execute.

(** send_sms_to_number *)

Record SmsArgs := mkSmsArgs { sms_to : string; sms_message : string }.

Definition sendSms_parameters : shape :=
  [ ("to", ZString None); ("message", ZString (Some 480)) ].

Definition sendSms_decode (input : gmap string value) : option SmsArgs :=
  match input !! "to", input !! "message" with
  | Some (VStr t), Some (VStr m) => Some (mkSmsArgs t m)
  | _, _ => None
  end.

Definition sms_attempt_event (to message : string) : gmap string value :=
  <["messagePreview" := VStr (slice message 0 80)]>
    (<["to" := VStr to]> (<["type" := VStr "sms_attempt"]> ∅)).

Definition sendSms_execute (a : SmsArgs) : M ToolResult :=
  let to := sms_to a in
  let message := sms_message a in
  assertE164 to;;
  appendEvent (sms_attempt_event to message);;
  match twilioClient cfg with
  | None => mret (backgroundResult "Twilio not configured; SMS skipped.")
  | Some client =>
      if String.eqb (TWILIO_FROM_NUMBER cfg) ""
      then mret (backgroundResult "Twilio not configured; SMS skipped.")
      else
        sid ← messages_create client
                (mkSms (TWILIO_FROM_NUMBER cfg) to
                   (message +:+ LF +:+ LF +:+ "Reply STOP to opt out."));
        mret (backgroundResult ("SMS sent: sid=" +:+ sid))
  end.

Definition sendSmsTool : Tool SmsArgs :=
  mkTool _ "send_sms_to_number" sendSms_parameters sendSms_decode sendSms_execute.

(** escalate_to_oncall *)

Record EscalateArgs := mkEscalateArgs {
  callerPhone : option string;
  serviceAddress : option string;
  issue : option string;
  reason : string
}.

Definition escalate_parameters : shape :=
  [ ("callerPhone", ZOptional (ZString None));
    ("serviceAddress", ZOptional (ZString None));
    ("issue", ZOptional (ZString None));
    ("reason", ZDefault (ZString None) (VStr "emergency")) ].

(** An optional string argument: a string, or [undefined]. *)
Definition optional_string (v : option value) : option (option string) :=
  match v with
  | None | Some VUndefined => Some None
  | Some (VStr s) => Some (Some s)
  | Some _ => None
  end.

Definition escalate_decode (input : gmap string value) : option EscalateArgs :=
  match optional_string (input !! "callerPhone"),
        optional_string (input !! "serviceAddress"),
        optional_string (input !! "issue"),
        input !! "reason" with
  | Some p, Some a, Some i, Some (VStr r) => Some (mkEscalateArgs p a i r)
  | _, _, _, _ => None
  end.

Definition opt_value (o : option string) : value :=
  match o with Some s => VStr s | None => VUndefined end.

Definition escalation_event (a : EscalateArgs) : gmap string value :=
  <["issue" := opt_value (issue a)]>
    (<["serviceAddress" := opt_value (serviceAddress a)]>
       (<["callerPhone" := opt_value (callerPhone a)]>
          (<["reason" := VStr (reason a)]>
             (<["type" := VStr "escalation"]> ∅)))).

(** [(x ? `Label: ${x}\n` : "")]. *)
Definition labelled (label : string) (x : option string) : string :=
  if truthy (opt_value x) then label +:+ String_ (opt_value x) +:+ LF else "".

Definition ALERT_MARK : string := "ðŸš¨".

Definition escalation_body (a : EscalateArgs) : string :=
  (ALERT_MARK +:+ " EMERGENCY LEAD (" +:+ BUSINESS_NAME cfg +:+ ")" +:+ LF) +:+
  ("Reason: " +:+ reason a +:+ LF) +:+
  labelled "Issue: " (issue a) +:+
  labelled "Address: " (serviceAddress a) +:+
  labelled "Caller: " (callerPhone a).

Definition escalate_execute (a : EscalateArgs) : M ToolResult :=
  appendEvent (escalation_event a);;
  match twilioClient cfg with
  | None => mret (backgroundResult "Twilio not configured; escalation SMS skipped.")
  | Some client =>
      if String.eqb (TWILIO_FROM_NUMBER cfg) ""
      then mret (backgroundResult "Twilio not configured; escalation SMS skipped.")
      else
        sid ← messages_create client
                (mkSms (TWILIO_FROM_NUMBER cfg) (ONCALL_PHONE cfg)
                   (escalation_body a));
        mret (backgroundResult ("Escalation SMS sent: sid=" +:+ sid))
  end.

Definition escalateTool : Tool EscalateArgs :=
  mkTool _ "escalate_to_oncall" escalate_parameters escalate_decode escalate_execute.

(** log_call_summary *)

Definition logSummary_parameters : shape := [ ("summary", ZString (Some 2000)) ].

Definition logSummary_decode (input : gmap string value) : option string :=
  match input !! "summary" with
  | Some (VStr s) => Some s
  | _ => None
  end.

Definition logSummary_execute (summary : string) : M ToolResult :=
  appendEvent (<["summary" := VStr summary]> (<["type" := VStr "call_summary"]> ∅));;
  mret (backgroundResult "Summary logged.").

Definition logSummaryTool : Tool string :=
  mkTool _ "log_call_summary" logSummary_parameters logSummary_decode logSummary_execute.

(** *** The media-stream route *)

(** The two closures the route registers on the session. *)
Inductive Listener := on_transport_event | on_error.

Definition run_listener (l : Listener) (arg : value) : M unit :=
  match l with
  | on_transport_event =>
      appendEvent
        (<["evtType" := or_else (optional_type arg) (VStr "unknown")]>
           (<["type" := VStr "transport_event"]> ∅))
  | on_error =>
      appendEvent
        (<["err" := VStr (String_ arg)]>
           (<["type" := VStr "session_error"]> ∅))
  end.

(** A [RealtimeSession] as far as the route touches it: the listeners
    registered with [session.on], in registration order, and whether
    [session.connect] has resolved. *)
Record Session := mkSession {
  listeners : list (string * Listener);
  connected : bool
}.

Definition new_session : Session := mkSession [] false.

Definition session_on (evt : string) (l : Listener) (s : Session) : Session :=
  mkSession (listeners s ++ [(evt, l)]) (connected s).

(** The session emitting [evt]: its listeners for that name run in
    registration order; one that throws ends the emission. *)
Fixpoint run_listeners (ls : list (string * Listener)) (evt : string)
         (arg : value) : M unit :=
  match ls with
  | [] => mret tt
  | (n, l) :: rest =>
      (if String.eqb n evt then run_listener l arg else mret tt);;
      run_listeners rest evt arg
  end.

Definition emit (s : Session) (evt : string) (arg : value) : M unit :=
  run_listeners (listeners s) evt arg.

Definition media_stream : M Session :=
  let session := new_session in
  let session := session_on "transport_event" on_transport_event session in
  let session := session_on "error" on_error session in
  backend_connect (OPENAI_API_KEY cfg);;
  appendEvent (<["type" := VStr "realtime_connected"]> ∅);;
  mret (mkSession (listeners session) true).

(** *** The voice webhook *)

(** The double quote of the markup's attribute values. *)
Definition DQ : string := String (Ascii.ascii_of_nat 34) EmptyString.

(** White space and line terminators below U+0080, which is all of them
    that the template of the route holds at its two ends. *)
Definition is_white (c : ascii) : bool :=
  let n := Ascii.nat_of_ascii c in
  Nat.eqb n 9 || Nat.eqb n 10 || Nat.eqb n 11 || Nat.eqb n 12
  || Nat.eqb n 13 || Nat.eqb n 32.

Fixpoint trimStart (s : string) : string :=
  match s with
  | EmptyString => EmptyString
  | String c r => if is_white c then trimStart r else s
  end.

Fixpoint trimEnd (s : string) : string :=
  match s with
  | EmptyString => EmptyString
  | String c r =>
      match trimEnd r with
      | EmptyString => if is_white c then EmptyString else String c EmptyString
      | r' => String c r'
      end
  end.

(** [s.trim()]. *)
Definition trim (s : string) : string := trimEnd (trimStart s).

(** [PUBLIC_HOST || String(request.headers.host)]. *)
Definition stream_host (host_header : value) : string :=
  match PUBLIC_HOST cfg with
  | Some h => if String.eqb h "" then String_ host_header else h
  | None => String_ host_header
  end.

(** The route [/incoming-call]: the content type and the body it sends. *)
Definition incoming_call (host_header : value) : string * string :=
  let host := stream_host host_header in
  let twiml :=
    trim
      (LF +:+
       "<?xml version=" +:+ DQ +:+ "1.0" +:+ DQ +:+ " encoding=" +:+ DQ +:+ "UTF-8"
         +:+ DQ +:+ "?>" +:+ LF +:+
       "<Response>" +:+ LF +:+
       "  <Say>This call may be recorded for quality and service.</Say>" +:+ LF +:+
       "  <Say>OK, you can start talking.</Say>" +:+ LF +:+
       "  <Connect>" +:+ LF +:+
       "    <Stream url=" +:+ DQ +:+ "wss://" +:+ host +:+ "/media-stream" +:+ DQ
         +:+ " />" +:+ LF +:+
       "  </Connect>" +:+ LF +:+
       "</Response>" +:+ LF) in
  ("text/xml", twiml).

End Tools.
End WithRuntime.
End Server.
Export Server.

(* ===================================================================== *)
(** ** Vocabulary of the statements, and a concrete world to run on *)
(* ===================================================================== *)

Section Vocabulary.
Context `{Runtime}.

(** The disk accepts writes, [data] is not a regular file and neither
    JSONL path is a directory. *)
Definition storage_ok (w : World) : bool :=
  negb (disk_faulty w)
  && match fs w !! DATA_DIR with Some (File _) => false | _ => true end
  && match fs w !! LEADS_FILE with Some Dir => false | _ => true end
  && match fs w !! EVENTS_FILE with Some Dir => false | _ => true end.

(** The effects of [ensureDataDir]: at most one mkdir and one create. *)
Definition ensure_effects (w : World) : list effect :=
  (if exists_in w DATA_DIR then [] else [FsMkdir DATA_DIR]) ++
  (if exists_in w LEADS_FILE then [] else [FsWrite LEADS_FILE []]).

(** A stretch of history that appends to no file, sends no message and
    opens no backend connection. *)
Definition setup_only (h : list effect) : Prop :=
  forall p, appended_to p h = [] /\ sms_sent h = [] /\ connects h = [].

(** A string variable of the environment is falsy when it is unset or
    empty. *)
Definition unset (env : gmap string string) (name : string) : bool :=
  match env !! name with
  | Some v => String.eqb v ""
  | None => true
  end.

(** The destination check of [assertE164], as a condition on the string. *)
Definition e164_ok (phone : string) : bool :=
  startsWith phone "+" && Nat.leb 11 (str_length phone).

(** The gateway is usable: a client was built and a sender number is set. *)
Definition gateway_configured (cfg : Config) : option TwilioClient :=
  match twilioClient cfg with
  | Some c => if String.eqb (TWILIO_FROM_NUMBER cfg) "" then None else Some c
  | None => None
  end.

(** The message of the error [assertE164] throws. *)
Definition E164_ERROR : string := "Phone must be E.164 format like +15551234567".

(** The line [appendEvent] writes for an [sms_attempt] in world [w]. *)
Definition sms_attempt_line (to message : string) (w : World) : json :=
  stringify_object
    (spread (sms_attempt_event to message)
       {[ "ts" := VStr (toISOString_at (clock_reads w)) ]}).

(** The request [send_sms_to_number] hands to the gateway. *)
Definition sms_request (cfg : Config) (to message : string) : Sms :=
  mkSms (TWILIO_FROM_NUMBER cfg) to
    (message +:+ LF +:+ LF +:+ "Reply STOP to opt out.").

(** The fields [create_lead] sets itself. *)
Definition tool_assigned_keys : list string :=
  ["id"; "createdAt"; "businessName"; "source"].

(** The object [create_lead] builds from the parsed arguments in world
    [w]: the identifier and the instant are the ones [w] hands out next. *)
Definition lead_of (cfg : Config) (input : gmap string value) (w : World)
  : gmap string value :=
  <["source" := VStr "twilio_call"]>
    (spread input
       (<["businessName" := VStr (BUSINESS_NAME cfg)]>
          (<["createdAt" := VStr (toISOString_at (clock_reads w))]>
             (<["id" := VStr (randomUUID_at (uuid_draws w))]> ∅)))).


(** The line written for an escalation in world [w]. *)
Definition escalation_line (a : EscalateArgs) (w : World) : json :=
  stringify_object
    (spread (escalation_event a)
       {[ "ts" := VStr (toISOString_at (clock_reads w)) ]}).

(** The request [escalate_to_oncall] hands to the gateway. *)
Definition escalation_request (cfg : Config) (a : EscalateArgs) : Sms :=
  mkSms (TWILIO_FROM_NUMBER cfg) (ONCALL_PHONE cfg) (escalation_body cfg a).

(** The session the media-stream route leaves behind once
    [session.connect] has resolved. *)
Definition bridge_session : Session :=
  mkSession [("transport_event", on_transport_event); ("error", on_error)] true.

(** The object a listener hands to [appendEvent]. *)
Definition listener_event (l : Listener) (arg : value) : gmap string value :=
  match l with
  | on_transport_event =>
      <["evtType" := or_else (optional_type arg) (VStr "unknown")]>
        (<["type" := VStr "transport_event"]> ∅)
  | on_error =>
      <["err" := VStr (String_ arg)]> (<["type" := VStr "session_error"]> ∅)
  end.

(** The line written for what a listener observed in world [w]. *)
Definition listener_line (l : Listener) (arg : value) (w : World) : json :=
  stringify_object
    (spread (listener_event l arg)
       {[ "ts" := VStr (toISOString_at (clock_reads w)) ]}).

End Vocabulary.

(* ===================================================================== *)
(** ** Vocabulary of the statements about the program as a whole *)
(* ===================================================================== *)

Section Envelope.
Context `{Runtime}.

(** The values of [type] the program writes to the event log. *)
Definition event_types : list string :=
  ["sms_attempt"; "escalation"; "call_summary"; "transport_event";
   "session_error"; "realtime_connected"].

(** The fields of the type [Lead] of [leadStore.ts]. *)
Definition lead_keys : list string :=
  ["id"; "createdAt"; "businessName"; "callerPhone"; "callerName";
   "serviceAddress"; "issue"; "urgency"; "preferredTime"; "notes"; "source"].

(** A line of the event log: a type among [event_types] and a timestamp. *)
Definition event_line_ok (line : json) : Prop :=
  (exists t, field "type" line = Some (JStr t) /\ t ∈ event_types)
  /\ (exists ts, field "ts" line = Some (JStr ts)).

(** A line of the lead store: a record of type [Lead], every field a
    string, the four assigned fields and the urgency present. *)
Definition lead_line_ok (cfg : Config) (line : json) : Prop :=
  (exists id, field "id" line = Some (JStr id))
  /\ (exists c, field "createdAt" line = Some (JStr c))
  /\ field "businessName" line = Some (JStr (BUSINESS_NAME cfg))
  /\ field "source" line = Some (JStr "twilio_call")
  /\ (exists u, field "urgency" line = Some (JStr u)
                /\ u ∈ ["low"; "normal"; "emergency"])
  /\ (forall k j, field k line = Some j -> k ∈ lead_keys /\ exists s, j = JStr s).

(** The path an effect on the file system acts on. *)
Definition effect_path (e : effect) : option path :=
  match e with
  | FsMkdir p | FsWrite p _ | FsAppend p _ => Some p
  | SmsCreate _ _ | SessionConnect _ => None
  end.

(** The effects the program may perform under configuration [cfg]. *)
Definition allowed (cfg : Config) (e : effect) : Prop :=
  match e with
  | FsMkdir p => p = DATA_DIR
  | FsWrite p content => p = LEADS_FILE /\ content = []
  | FsAppend p line =>
      (p = LEADS_FILE /\ lead_line_ok cfg line)
      \/ (p = EVENTS_FILE /\ event_line_ok line)
  | SmsCreate c m =>
      gateway_configured cfg = Some c /\ from m = TWILIO_FROM_NUMBER cfg
  | SessionConnect k => k = OPENAI_API_KEY cfg
  end.

(** World [w'] comes after [w] by effects that all satisfy [Q]: the
    history is extended by them, every file holds what it held followed by
    the lines appended to it, and a path no effect names is as it was. *)
Definition grows (Q : effect -> Prop) (w w' : World) : Prop :=
  exists h,
    history w' = history w ++ h
    /\ Forall Q h
    /\ (forall p, read_lines p w' = read_lines p w ++ appended_to p h)
    /\ (forall p, Forall (fun e => effect_path e <> Some p) h -> fs w' !! p = fs w !! p)
    /\ disk_faulty w' = disk_faulty w.

(** A computation all of whose runs, returning or throwing, stay within
    [Q]. *)
Definition keeps {A} (Q : effect -> Prop) (m : M A) : Prop :=
  forall w r w', m w = (r, w') -> grows Q w w'.

(** The ways into the program once it is serving: a call of one of the
    four tools, one of the two listeners running, the media-stream route. *)
Inductive entry (cfg : Config) : forall A, M A -> Prop :=
| entry_create_lead raw : entry cfg _ (invoke (createLeadTool cfg) raw)
| entry_send_sms raw : entry cfg _ (invoke (sendSmsTool cfg) raw)
| entry_escalate raw : entry cfg _ (invoke (escalateTool cfg) raw)
| entry_log_summary raw : entry cfg _ (invoke logSummaryTool raw)
| entry_listener l arg : entry cfg _ (run_listener l arg)
| entry_media_stream : entry cfg _ (media_stream cfg).

(** The message of the error a call with refused arguments throws. *)
Definition INVALID_INPUT : string := "Invalid JSON input for tool".

(** Entries run one after another, each to its end (returning or
    throwing), from world [w] to world [w']. *)
Inductive run_steps (cfg : Config) : World -> World -> Prop :=
| steps_done w : run_steps cfg w w
| steps_next A (m : M A) w r w1 w2 :
    entry cfg A m -> m w = (r, w1) -> run_steps cfg w1 w2 -> run_steps cfg w w2.

(** create_lead called once for each argument set of a list, in order. *)
Fixpoint create_leads (cfg : Config) (raws : list value) : M (list ToolResult) :=
  match raws with
  | [] => mret []
  | raw :: rest =>
      r ← invoke (createLeadTool cfg) raw;
      rs ← create_leads cfg rest;
      mret (r :: rs)
  end.

(** The line written for a call summary in world [w]. *)
Definition summary_line (summary : string) (w : World) : json :=
  stringify_object
    (spread (<["summary" := VStr summary]> (<["type" := VStr "call_summary"]> ∅))
       {[ "ts" := VStr (toISOString_at (clock_reads w)) ]}).

(** The markup the voice webhook answers with, for a given host. *)
Definition twiml_for (host : string) : string :=
  "<?xml version=" +:+ DQ +:+ "1.0" +:+ DQ +:+ " encoding=" +:+ DQ +:+ "UTF-8"
    +:+ DQ +:+ "?>" +:+ LF +:+
  "<Response>" +:+ LF +:+
  "  <Say>This call may be recorded for quality and service.</Say>" +:+ LF +:+
  "  <Say>OK, you can start talking.</Say>" +:+ LF +:+
  "  <Connect>" +:+ LF +:+
  "    <Stream url=" +:+ DQ +:+ "wss://" +:+ host +:+ "/media-stream" +:+ DQ
    +:+ " />" +:+ LF +:+
  "  </Connect>" +:+ LF +:+
  "</Response>".
End Envelope.

(** A runtime and worlds on which the definitions evaluate. *)
Module Demo.
#[local] Instance runtime : Runtime := {|
  randomUUID_at n := "uuid-" +:+ pretty n;
  toISOString_at n := "2025-01-01T00:00:00." +:+ pretty n +:+ "Z";
  Number_of_string s := if String.eqb s "8080" then Int 8080 else NaN;
  messages_create_at n m := Accepted ("SM" +:+ pretty n);
  connect_at n := None
|}.

Definition fresh_world : World := mkWorld ∅ false 0 0 [].

Definition env_minimal : gmap string string :=
  <["ONCALL_PHONE" := "+15550001111"]> (<["OPENAI_API_KEY" := "sk-test"]> ∅).

Definition env_full : gmap string string :=
  <["TWILIO_ACCOUNT_SID" := "AC123"]>
    (<["TWILIO_AUTH_TOKEN" := "secret"]>
       (<["TWILIO_FROM_NUMBER" := "+15550002222"]> env_minimal)).

Definition cfg_minimal : Config :=
  mkConfig (Int 5050) None "NY Plumbing (Pilot)" "+15550001111" "sk-test"
    "" "" "" None.

Definition cfg_full : Config :=
  mkConfig (Int 5050) None "NY Plumbing (Pilot)" "+15550001111" "sk-test"
    "AC123" "secret" "+15550002222" (Some (twilio "AC123" "secret")).

(** Arguments of create_lead: an ordinary call, and one that tries to set
    the fields the tool assigns. *)
Definition burst_pipe_args : value := VObj (<["issue" := VStr "burst pipe"]> ∅).

Definition forged_args : value :=
  VObj (<["id" := VStr "forged"]>
          (<["createdAt" := VStr "1999-01-01"]>
             (<["businessName" := VStr "Other Co"]>
                (<["source" := VStr "web"]>
                   (<["issue" := VStr "leak"]> ∅))))).

(** An error the voice backend may report. *)
Definition socket_error : value := VError "Error" "socket hang up".

(** A world in which one lead and one event are already stored, under a
    directory that holds a file of its own. *)
Definition used_world : World :=
  let w1 := (invoke (createLeadTool cfg_minimal) burst_pipe_args fresh_world).2 in
  let w2 := (run_listener on_error socket_error w1).2 in
  mkWorld (<[["data"; "notes.txt"] := File [JStr "keep"]]> (fs w2))
    false (uuid_draws w2) (clock_reads w2) (history w2).


(** A runtime whose provider and voice backend refuse every request. *)
Definition rejecting_runtime : Runtime := {|
  randomUUID_at n := "uuid-" +:+ pretty n;
  toISOString_at n := "2025-01-01T00:00:00." +:+ pretty n +:+ "Z";
  Number_of_string s := NaN;
  messages_create_at n m := Rejected "HTTP 503";
  connect_at n := Some "ECONNREFUSED"
|}.
End Demo.

(* ===================================================================== *)
(** ** Storage that works, and what the two store functions do on it *)
(* ===================================================================== *)

Section StoreFacts.
Context `{Runtime}.

Lemma ensure_effects_setup_only w : setup_only (ensure_effects w).
Proof.
  intros p. unfold ensure_effects.
  destruct (exists_in w DATA_DIR), (exists_in w LEADS_FILE); done.
Qed.

Lemma appended_to_app p h1 h2 :
  appended_to p (h1 ++ h2) = appended_to p h1 ++ appended_to p h2.
Proof. unfold appended_to. apply omap_app. Qed.

Lemma sms_sent_app h1 h2 : sms_sent (h1 ++ h2) = sms_sent h1 ++ sms_sent h2.
Proof. unfold sms_sent. apply omap_app. Qed.


Lemma ensureDataDir_ok w :
  storage_ok w = true ->
  exists w1,
    ensureDataDir w = (Ok tt, w1)
    /\ history w1 = history w ++ ensure_effects w
    /\ storage_ok w1 = true
    /\ is_dir DATA_DIR w1 = true
    /\ read_lines LEADS_FILE w1 = read_lines LEADS_FILE w
    /\ read_lines EVENTS_FILE w1 = read_lines EVENTS_FILE w
    /\ fs w1 !! EVENTS_FILE = fs w !! EVENTS_FILE
    /\ (exists ls, fs w1 !! LEADS_FILE = Some (File ls))
    /\ uuid_draws w1 = uuid_draws w
    /\ clock_reads w1 = clock_reads w.
Proof.
  destruct w as [f faulty u c h]. unfold storage_ok. cbn [fs disk_faulty].
  intros Hok. repeat (apply andb_prop in Hok as [Hok ?]).
  destruct faulty; [done|].
  unfold ensureDataDir, ensure_effects, existsSync, mkdirSync, writeFileSync,
    exists_in, is_dir, read_lines, log_effect, set_fs, mbind, M_bind, mret, M_ret.
  cbn.
  destruct (f !! DATA_DIR) as [[|?]|] eqn:Hd; [|done|];
    destruct (f !! LEADS_FILE) as [[|?]|] eqn:Hl; try done;
    destruct (f !! EVENTS_FILE) as [[|?]|] eqn:He; try done;
    unfold DATA_DIR, LEADS_FILE, EVENTS_FILE, path_join in *; cbn in *;
    simplify_map_eq; cbn; simplify_map_eq;
    eexists; repeat split; cbn; simplify_map_eq; eauto using app_nil_r;
    by rewrite <- app_assoc.
Qed.

(** What one [appendFileSync] does once [ensureDataDir] has run. *)
Lemma appendFileSync_ok p line w :
  disk_faulty w = false ->
  is_dir (parent p) w = true ->
  fs w !! p <> Some Dir ->
  appendFileSync p line w =
    (Ok tt, log_effect (FsAppend p line)
              (set_fs (<[p := File (read_lines p w ++ [line])]> (fs w)) w)).
Proof.
  intros Hf Hd Hp. unfold appendFileSync, read_lines. rewrite Hf, Hd. cbn.
  destruct (fs w !! p) as [[|?]|]; done.
Qed.

Lemma appendEvent_ok event w :
  storage_ok w = true ->
  exists w',
    appendEvent event w = (Ok tt, w')
    /\ history w' = history w ++ ensure_effects w ++
         [FsAppend EVENTS_FILE
            (stringify_object
               (spread event {[ "ts" := VStr (toISOString_at (clock_reads w)) ]}))]
    /\ read_lines EVENTS_FILE w' = read_lines EVENTS_FILE w ++
         [stringify_object
            (spread event {[ "ts" := VStr (toISOString_at (clock_reads w)) ]})]
    /\ read_lines LEADS_FILE w' = read_lines LEADS_FILE w
    /\ storage_ok w' = true
    /\ uuid_draws w' = uuid_draws w
    /\ clock_reads w' = S (clock_reads w).
Proof.
  intros Hok.
  destruct (ensureDataDir_ok w Hok)
    as (w1 & Hrun & Hh & Hok1 & Hdir & Hrl & Hre & Hfe & [ls Hfl] & Hu & Hc).
  unfold appendEvent, mbind, M_bind. rewrite Hrun.
  unfold now_iso at 1. cbn beta iota.
  set (w2 := mkWorld (fs w1) (disk_faulty w1) (uuid_draws w1) (S (clock_reads w1)) (history w1)).
  assert (Hok2 : storage_ok w2 = true) by exact Hok1.
  unfold storage_ok in Hok1. repeat (apply andb_prop in Hok1 as [Hok1 ?]).
  rewrite appendFileSync_ok; cycle 1.
  { change (disk_faulty w2) with (disk_faulty w1). by destruct (disk_faulty w1). }
  { exact Hdir. }
  { change (fs w2) with (fs w1). by destruct (fs w1 !! EVENTS_FILE) as [[|?]|]. }
  rewrite Hc. eexists; split; [reflexivity|].
  repeat split.
  - cbn [history log_effect set_fs w2]. subst w2. cbn [history]. by rewrite Hh, <- app_assoc.
  - rewrite <- Hre. subst w2. unfold read_lines. cbn [fs log_effect set_fs].
    by rewrite lookup_insert_eq.
  - rewrite <- Hrl. subst w2. unfold read_lines. cbn [fs log_effect set_fs].
    by rewrite lookup_insert_ne.
  - subst w2. unfold storage_ok in *.
    cbn [fs disk_faulty log_effect set_fs] in *.
    rewrite lookup_insert_eq, !lookup_insert_ne by done.
    repeat (apply andb_prop in Hok2 as [Hok2 ?]).
    repeat (apply andb_true_intro; split); done.
  - done.
  - subst w2. cbn [clock_reads log_effect set_fs]. by rewrite Hc.
Qed.

Lemma appendLead_ok lead w :
  storage_ok w = true ->
  exists w',
    appendLead lead w = (Ok tt, w')
    /\ history w' = history w ++ ensure_effects w ++
         [FsAppend LEADS_FILE (stringify_object lead)]
    /\ read_lines LEADS_FILE w' = read_lines LEADS_FILE w ++ [stringify_object lead]
    /\ read_lines EVENTS_FILE w' = read_lines EVENTS_FILE w
    /\ storage_ok w' = true
    /\ uuid_draws w' = uuid_draws w
    /\ clock_reads w' = clock_reads w.
Proof.
  intros Hok.
  destruct (ensureDataDir_ok w Hok)
    as (w1 & Hrun & Hh & Hok1 & Hdir & Hrl & Hre & Hfe & [ls Hfl] & Hu & Hc).
  unfold appendLead, mbind, M_bind. rewrite Hrun.
  assert (Hok2 := Hok1).
  unfold storage_ok in Hok1. repeat (apply andb_prop in Hok1 as [Hok1 ?]).
  rewrite appendFileSync_ok; cycle 1.
  { by destruct (disk_faulty w1). }
  { exact Hdir. }
  { by rewrite Hfl. }
  eexists; split; [reflexivity|].
  repeat split.
  - cbn [history log_effect set_fs]. by rewrite Hh, <- app_assoc.
  - rewrite <- Hrl. unfold read_lines. cbn [fs log_effect set_fs].
    by rewrite lookup_insert_eq.
  - rewrite <- Hre. unfold read_lines. cbn [fs log_effect set_fs].
    by rewrite lookup_insert_ne.
  - unfold storage_ok in *.
    cbn [fs disk_faulty log_effect set_fs] in *.
    rewrite lookup_insert_eq, !lookup_insert_ne by done.
    repeat (apply andb_prop in Hok2 as [Hok2 ?]).
    repeat (apply andb_true_intro; split); done.
  - done.
  - done.
Qed.
End StoreFacts.

(* ===================================================================== *)
(** ** Startup *)
(* ===================================================================== *)

Section Startup.
Context `{Runtime}.

Lemma mustEnv_unset env name :
  unset env name = true ->
  mustEnv env name = Exited 1 ("Missing env var: " +:+ name).
Proof.
  unfold unset, mustEnv. destruct (env !! name) as [v|]; [|done].
  by intros ->.
Qed.

Lemma mustEnv_set env name :
  unset env name = false ->
  exists v, env !! name = Some v /\ v <> "" /\ mustEnv env name = Running v.
Proof.
  unfold unset, mustEnv. destruct (env !! name) as [v|]; [|done].
  intros Hv. rewrite Hv. exists v. repeat split.
  by intros ->.
Qed.

Lemma env_or_unset env name d : unset env name = true -> env_or env name d = d.
Proof.
  unfold unset, env_or. destruct (env !! name) as [v|]; [|done]. by intros ->.
Qed.


(** The gateway client and sender of a started process are usable only
    when all three Twilio variables are set. *)
Lemma gateway_unconfigured_after_main env cfg :
  main env = Running cfg ->
  unset env "TWILIO_ACCOUNT_SID" = true
  \/ unset env "TWILIO_AUTH_TOKEN" = true
  \/ unset env "TWILIO_FROM_NUMBER" = true ->
  gateway_configured cfg = None.
Proof.
  intros Hmain Hun. unfold main, mbind, boot_bind, mret, boot_ret in Hmain.
  destruct (mustEnv env "ONCALL_PHONE"); [|done].
  destruct (mustEnv env "OPENAI_API_KEY"); [|done].
  injection Hmain as <-. unfold gateway_configured.
  cbn [twilioClient TWILIO_FROM_NUMBER].
  destruct Hun as [Hs|[Ht|Hf]].
  - by rewrite (env_or_unset _ _ _ Hs).
  - rewrite (env_or_unset _ _ _ Ht). by rewrite andb_false_r.
  - rewrite (env_or_unset _ _ _ Hf).
    by destruct (negb _ && negb _).
Qed.
End Startup.

Section StartupWitness.
#[local] Existing Instance Demo.runtime.

End StartupWitness.

(* ===================================================================== *)
(** ** send_sms_to_number *)
(* ===================================================================== *)

Section SendSms.
Context `{Runtime}.
Variable cfg : Config.

Lemma assertE164_spec phone w :
  assertE164 phone w =
  if e164_ok phone then (Ok tt, w) else (Throw E164_ERROR, w).
Proof.
  unfold assertE164, e164_ok.
  destruct (startsWith phone "+"); cbn [negb orb andb]; [|done].
  destruct (Nat.ltb_spec (str_length phone) 11), (Nat.leb_spec 11 (str_length phone));
    first [done | lia].
Qed.


Lemma e164_ok_true phone :
  e164_ok phone = true <->
  (startsWith phone "+" = true /\ 11 <= str_length phone).
Proof.
  unfold e164_ok. rewrite andb_true_iff, Nat.leb_le. tauto.
Qed.



Lemma slice_0_short s n : str_length s <= n -> slice s 0 n = s.
Proof.
  unfold slice, str_length. rewrite Nat.sub_0_r.
  revert s; induction n as [|n IH]; intros [|c s]; cbn; auto; try lia.
  intros Hl. f_equal. apply IH. lia.
Qed.

Lemma sms_attempt_line_fields to message w :
  field "type" (sms_attempt_line to message w) = Some (JStr "sms_attempt")
  /\ field "to" (sms_attempt_line to message w) = Some (JStr to)
  /\ field "messagePreview" (sms_attempt_line to message w)
     = Some (JStr (slice message 0 80))
  /\ field "ts" (sms_attempt_line to message w)
     = Some (JStr (toISOString_at (clock_reads w))).
Proof.
  unfold sms_attempt_line, stringify_object, field, spread, sms_attempt_event.
  rewrite !lookup_omap, !lookup_union.
  repeat split; by simplify_map_eq.
Qed.

(** What [execute] does on a destination that passes the check, on
    working storage. *)
Lemma sendSms_execute_valid to message w :
  e164_ok to = true ->
  storage_ok w = true ->
  exists w1,
    appendEvent (sms_attempt_event to message) w = (Ok tt, w1)
    /\ history w1 = history w ++ ensure_effects w ++
         [FsAppend EVENTS_FILE (sms_attempt_line to message w)]
    /\ read_lines EVENTS_FILE w1 =
         read_lines EVENTS_FILE w ++ [sms_attempt_line to message w]
    /\ sendSms_execute cfg (mkSmsArgs to message) w =
       match gateway_configured cfg with
       | None => (Ok (backgroundResult "Twilio not configured; SMS skipped."), w1)
       | Some c =>
           match messages_create_at (length (sms_sent (history w1)))
                   (sms_request cfg to message) with
           | Accepted sid =>
               (Ok (backgroundResult ("SMS sent: sid=" +:+ sid)),
                log_effect (SmsCreate c (sms_request cfg to message)) w1)
           | Rejected err =>
               (Throw err, log_effect (SmsCreate c (sms_request cfg to message)) w1)
           end
       end.
Proof.
  intros Hv Hok.
  destruct (appendEvent_ok (sms_attempt_event to message) w Hok)
    as (w1 & Hrun & Hh & Hre & _).
  exists w1. repeat split; try done.
  unfold sendSms_execute, gateway_configured. cbn [sms_to sms_message].
  unfold mbind at 1, M_bind at 1. rewrite assertE164_spec, Hv.
  unfold mbind at 1, M_bind at 1. rewrite Hrun.
  destruct (twilioClient cfg) as [c|]; [|done].
  destruct (String.eqb (TWILIO_FROM_NUMBER cfg) ""); [done|].
  unfold mbind, M_bind, messages_create, sms_request.
  by destruct (messages_create_at _ _).
Qed.



(** C4.  With a destination that passes the check and the gateway
    credentials (account SID, auth token or sender number) unset, the tool
    returns the skipped result, makes no gateway call, and still appends
    exactly one [sms_attempt] event. *)
Theorem sendSms_skipped_without_gateway
        (env : gmap string string) (to message : string) (w : World) :
  main env = Running cfg ->
  unset env "TWILIO_ACCOUNT_SID" = true
  \/ unset env "TWILIO_AUTH_TOKEN" = true
  \/ unset env "TWILIO_FROM_NUMBER" = true ->
  startsWith to "+" = true /\ 11 <= str_length to ->
  storage_ok w = true ->
  exists w' line,
    sendSms_execute cfg (mkSmsArgs to message) w =
      (Ok (backgroundResult "Twilio not configured; SMS skipped."), w')
    /\ sms_sent (history w') = sms_sent (history w)
    /\ appended_to EVENTS_FILE (history w') =
         appended_to EVENTS_FILE (history w) ++ [line]
    /\ read_lines EVENTS_FILE w' = read_lines EVENTS_FILE w ++ [line]
    /\ field "type" line = Some (JStr "sms_attempt")
    /\ field "to" line = Some (JStr to)
    /\ field "messagePreview" line = Some (JStr (slice message 0 80)).
Proof.
  intros Hmain Hun Hgood Hok. apply e164_ok_true in Hgood.
  destruct (sendSms_execute_valid to message w Hgood Hok)
    as (w1 & _ & Hh & Hre & Hrun).
  rewrite (gateway_unconfigured_after_main env cfg Hmain Hun) in Hrun.
  destruct (sms_attempt_line_fields to message w) as (Ft & Fto & Fp & _).
  destruct (ensure_effects_setup_only w EVENTS_FILE) as (Hse & Hss & _).
  exists w1, (sms_attempt_line to message w).
  split; [exact Hrun|]. rewrite Hh.
  repeat split; try done.
  - rewrite !sms_sent_app, Hss. cbn. by rewrite app_nil_r.
  - rewrite !appended_to_app, Hse. cbn. by rewrite decide_True.
Qed.

End SendSms.

Section SendSmsWitnesses.
#[local] Existing Instance Demo.runtime.
Import Demo.


Lemma sendSms_skipped_without_gateway_witness :
  exists w',
    sendSms_execute cfg_minimal (mkSmsArgs "+15551234567" "See you at 9") fresh_world
    = (Ok (backgroundResult "Twilio not configured; SMS skipped."), w')
    /\ sms_sent (history w') = [].
Proof.
  destruct (sendSms_skipped_without_gateway cfg_minimal env_minimal
              "+15551234567" "See you at 9" fresh_world)
    as (w' & line & Hrun & Hsent & _).
  - reflexivity.
  - left. reflexivity.
  - split; [reflexivity | cbn; lia].
  - reflexivity.
  - exists w'. split; [exact Hrun | exact Hsent].
Defined.

End SendSmsWitnesses.

(* ===================================================================== *)
(** ** The schemas: what parsing keeps and what it yields *)
(* ===================================================================== *)

Section Schemas.

(** Every parsed value is a string or [undefined]: the schemas of this
    program have no other leaves. *)
Lemma parse_string_or_undefined t v r :
  parse t v = Some r -> r = VUndefined \/ exists s, r = VStr s.
Proof.
  revert v r. induction t as [max|options|t IH|t IH d]; intros v r; cbn.
  - destruct v; try done.
    destruct max as [n|]; [case_match; [done|]|]; intros [= <-]; eauto.
  - destruct v; try done. case_bool_decide; [|done]. intros [= <-]; eauto.
  - destruct v; try (apply IH). intros [= <-]; eauto.
  - destruct v; apply IH.
Qed.

(** The parsed object holds no key outside the shape. *)
Lemma parse_keys_strips sh data out k :
  parse_keys sh data = Some out ->
  k ∉ sh.*1 ->
  out !! k = None.
Proof.
  revert out. induction sh as [|[k' t] sh IH]; intros out; cbn.
  - intros [= <-] _. apply lookup_empty.
  - destruct (parse t _) as [r|]; [|done].
    destruct (parse_keys sh data) as [out'|]; [|done].
    intros Hout Hk. apply not_elem_of_cons in Hk as [Hne Hk].
    specialize (IH out' eq_refl Hk).
    destruct (is_undefined r && _); injection Hout as <-; [done|].
    by rewrite lookup_insert_ne.
Qed.

(** A key of the shape is parsed from the data's value for it, and is set
    in the result unless it was missing and parsed to [undefined]. *)
Lemma parse_keys_lookup sh data out k t :
  NoDup sh.*1 ->
  (k, t) ∈ sh ->
  parse_keys sh data = Some out ->
  exists r,
    parse t (default VUndefined (data !! k)) = Some r
    /\ out !! k =
       if is_undefined r && negb (bool_decide (is_Some (data !! k)))
       then None else Some r.
Proof.
  revert out. induction sh as [|[k' t'] sh IH]; intros out Hnd Hin; cbn.
  - by apply elem_of_nil in Hin.
  - apply NoDup_cons in Hnd as [Hk' Hnd].
    destruct (parse t' _) as [r'|] eqn:Hp'; [|done].
    destruct (parse_keys sh data) as [out'|] eqn:Hrest; [|done].
    intros Hout. apply elem_of_cons in Hin as [[= -> ->]|Hin].
    + exists r'. split; [done|].
      pose proof (parse_keys_strips sh data out' k' Hrest Hk') as Hnone.
      destruct (is_undefined r' && _); injection Hout as <-; [done|].
      by rewrite lookup_insert_eq.
    + destruct (IH out' Hnd Hin eq_refl) as (r & Hp & Hl).
      exists r. split; [done|].
      assert (k <> k') as Hne.
      { intros ->. apply Hk'. apply list_elem_of_fmap. by exists (k', t). }
      destruct (is_undefined r' && _); injection Hout as <-; [done|].
      by rewrite lookup_insert_ne.
Qed.


End Schemas.

(* ===================================================================== *)
(** ** create_lead *)
(* ===================================================================== *)

Section CreateLead.
Context `{Runtime}.
Variable cfg : Config.

(** A successful [appendLead] has put its line at the end of the leads
    file, whatever the state of the disk was. *)
Lemma appendLead_inv lead w w' :
  appendLead lead w = (Ok tt, w') ->
  read_lines LEADS_FILE w' = read_lines LEADS_FILE w ++ [stringify_object lead]
  /\ uuid_draws w' = uuid_draws w
  /\ clock_reads w' = clock_reads w.
Proof.
  destruct w as [f faulty u c h].
  unfold appendLead, ensureDataDir, existsSync, mkdirSync, writeFileSync,
    appendFileSync, exists_in, is_dir, read_lines, log_effect, set_fs,
    mbind, M_bind, mret, M_ret.
  unfold DATA_DIR, LEADS_FILE, path_join. cbn.
  destruct faulty; cbn;
    destruct (f !! ["data"]) as [[|?]|] eqn:Hd; cbn;
    destruct (f !! ["data"; "leads.jsonl"]) as [[|?]|] eqn:Hl; cbn;
    simplify_map_eq; cbn; simplify_map_eq;
    try done; intros [= <-]; cbn; by simplify_map_eq.
Qed.

Lemma createLead_execute_ok input w :
  storage_ok w = true ->
  exists w',
    createLead_execute cfg input w =
      (Ok (backgroundResult ("Lead stored with id " +:+ randomUUID_at (uuid_draws w))), w')
    /\ history w' = history w ++ ensure_effects w ++
         [FsAppend LEADS_FILE (stringify_object (lead_of cfg input w))]
    /\ read_lines LEADS_FILE w' =
         read_lines LEADS_FILE w ++ [stringify_object (lead_of cfg input w)]
    /\ read_lines EVENTS_FILE w' = read_lines EVENTS_FILE w
    /\ storage_ok w' = true
    /\ uuid_draws w' = S (uuid_draws w)
    /\ clock_reads w' = S (clock_reads w).
Proof.
  intros Hok.
  set (w2 := mkWorld (fs w) (disk_faulty w) (S (uuid_draws w))
               (S (clock_reads w)) (history w)).
  destruct (appendLead_ok (lead_of cfg input w) w2 Hok)
    as (w' & Hrun & Hh & Hrl & Hre & Hok' & Hu & Hc).
  exists w'. split; [|by repeat split].
  unfold createLead_execute, mbind, M_bind, randomUUID, now_iso.
  cbn [fs disk_faulty uuid_draws clock_reads history].
  fold w2. unfold lead_of in Hrun. by rewrite Hrun.
Qed.

Lemma createLead_execute_inv input w r w' :
  createLead_execute cfg input w = (Ok r, w') ->
  r = backgroundResult ("Lead stored with id " +:+ randomUUID_at (uuid_draws w))
  /\ read_lines LEADS_FILE w' =
       read_lines LEADS_FILE w ++ [stringify_object (lead_of cfg input w)].
Proof.
  unfold createLead_execute, mbind, M_bind, randomUUID, now_iso.
  cbn [fs disk_faulty uuid_draws clock_reads history].
  fold (lead_of cfg input w).
  set (w2 := mkWorld _ _ _ _ _).
  destruct (appendLead _ w2) as [[[]|e] w3] eqn:Hrun; [|done].
  intros [= <- <-]. split; [done|].
  by destruct (appendLead_inv _ _ _ Hrun) as (-> & _).
Qed.

(** The four fields the tool assigns, on any input that holds none of
    those keys. *)
Lemma lead_assigned_fields input w :
  (forall k, k ∈ tool_assigned_keys -> input !! k = None) ->
  let line := stringify_object (lead_of cfg input w) in
  field "id" line = Some (JStr (randomUUID_at (uuid_draws w)))
  /\ field "createdAt" line = Some (JStr (toISOString_at (clock_reads w)))
  /\ field "businessName" line = Some (JStr (BUSINESS_NAME cfg))
  /\ field "source" line = Some (JStr "twilio_call").
Proof.
  intros Hstrip. cbn zeta.
  unfold stringify_object, field, lead_of, spread.
  rewrite !lookup_omap.
  assert (input !! "id" = None) as Hid by (apply Hstrip; set_solver).
  assert (input !! "createdAt" = None) as Hc by (apply Hstrip; set_solver).
  assert (input !! "businessName" = None) as Hb by (apply Hstrip; set_solver).
  repeat split.
  - rewrite lookup_insert_ne, lookup_union_r by done. by simplify_map_eq.
  - rewrite lookup_insert_ne, lookup_union_r by done. by simplify_map_eq.
  - rewrite lookup_insert_ne, lookup_union_r by done. by simplify_map_eq.
  - by rewrite lookup_insert_eq.
Qed.

(** A schema field of the lead is the parsed argument. *)
Lemma lead_argument_field input w k :
  k ∈ createLead_parameters.*1 ->
  field k (stringify_object (lead_of cfg input w)) = input !! k ≫= JSON_stringify.
Proof.
  intros Hk. unfold stringify_object, field, lead_of, spread.
  rewrite lookup_omap.
  assert (k <> "source" /\ k <> "businessName" /\ k <> "createdAt" /\ k <> "id")
    as (? & ? & ? & ?).
  { unfold createLead_parameters in Hk. cbn in Hk.
    repeat (apply elem_of_cons in Hk as [->|Hk]; [done|]).
    by apply elem_of_nil in Hk. }
  rewrite lookup_insert_ne by done.
  destruct (input !! k) as [v|] eqn:Hin.
  - by rewrite (lookup_union_Some_l _ _ _ _ Hin).
  - rewrite lookup_union_r by done. by simplify_map_eq.
Qed.

Lemma createLead_keys_NoDup : NoDup createLead_parameters.*1.
Proof. by apply (bool_decide_unpack _). Qed.

Lemma createLead_strips_assigned_keys raw input k :
  parse_object createLead_parameters raw = Some input ->
  k ∈ tool_assigned_keys ->
  input !! k = None.
Proof.
  destruct raw; try done. cbn [parse_object]. intros Hp Hk.
  eapply parse_keys_strips; [exact Hp|].
  unfold tool_assigned_keys in Hk. cbn.
  repeat (apply elem_of_cons in Hk as [->|Hk];
          [by apply (bool_decide_unpack _)|]).
  by apply elem_of_nil in Hk.
Qed.

Lemma parse_keys_values sh data out k v :
  parse_keys sh data = Some out ->
  out !! k = Some v ->
  v = VUndefined \/ exists s, v = VStr s.
Proof.
  revert out. induction sh as [|[k' t] sh IH]; intros out; cbn.
  - intros [= <-]. by rewrite lookup_empty.
  - destruct (parse t _) as [r|] eqn:Hp; [|done].
    destruct (parse_keys sh data) as [out'|]; [|done].
    destruct (is_undefined r && _); intros [= <-]; [by apply IH|].
    destruct (decide (k' = k)) as [->|Hne].
    + rewrite lookup_insert_eq. intros [= <-].
      by eapply parse_string_or_undefined.
    + rewrite lookup_insert_ne by done. by apply IH.
Qed.

(** A successful call went through the schema and through [execute]. *)
Lemma invoke_createLead_inv raw w r w' :
  invoke (createLeadTool cfg) raw w = (Ok r, w') ->
  exists input,
    parse_object createLead_parameters raw = Some input
    /\ createLead_execute cfg input w = (Ok r, w').
Proof.
  unfold invoke. cbn [parameters decode execute createLeadTool].
  destruct (parse_object createLead_parameters raw) as [input|]; [|done].
  eauto.
Qed.

Lemma urgency_in_shape :
  ("urgency", ZDefault (ZEnum ["low"; "normal"; "emergency"]) (VStr "normal"))
    ∈ createLead_parameters.
Proof. unfold createLead_parameters. repeat constructor. Qed.

(** The stored urgency: the default when the arguments had none. *)
Lemma lead_urgency_default m input w :
  parse_keys createLead_parameters m = Some input ->
  m !! "urgency" = None ->
  field "urgency" (stringify_object (lead_of cfg input w)) = Some (JStr "normal").
Proof.
  intros Hp Hm.
  destruct (parse_keys_lookup _ _ _ _ _ createLead_keys_NoDup urgency_in_shape Hp)
    as (r & Hr & Hl).
  rewrite Hm in Hr, Hl. cbn in Hr. injection Hr as <-. cbn in Hl.
  rewrite lead_argument_field by (by apply (bool_decide_unpack _)).
  by rewrite Hl.
Qed.

(** C2.  On arguments the schema accepts and working storage, a call of
    create_lead draws one new identifier and one instant, appends exactly
    one line to the leads file, the Lead with that identifier, that
    instant, the deployment's business name, the tag "twilio_call" and
    urgency "normal" when the arguments had none, and then returns "Lead
    stored with id" followed by the identifier. *)
Theorem createLead_writes_one_lead (raw : value) (input : gmap string value) (w : World) :
  parse_object createLead_parameters raw = Some input ->
  storage_ok w = true ->
  exists w' line,
    invoke (createLeadTool cfg) raw w =
      (Ok (backgroundResult ("Lead stored with id " +:+ randomUUID_at (uuid_draws w))), w')
    /\ history w' = history w ++ ensure_effects w ++ [FsAppend LEADS_FILE line]
    /\ appended_to LEADS_FILE (history w') =
         appended_to LEADS_FILE (history w) ++ [line]
    /\ read_lines LEADS_FILE w' = read_lines LEADS_FILE w ++ [line]
    /\ uuid_draws w' = S (uuid_draws w)
    /\ clock_reads w' = S (clock_reads w)
    /\ field "id" line = Some (JStr (randomUUID_at (uuid_draws w)))
    /\ field "createdAt" line = Some (JStr (toISOString_at (clock_reads w)))
    /\ field "businessName" line = Some (JStr (BUSINESS_NAME cfg))
    /\ field "source" line = Some (JStr "twilio_call")
    /\ (forall m, raw = VObj m -> m !! "urgency" = None ->
        field "urgency" line = Some (JStr "normal")).
Proof.
  intros Hp Hok.
  destruct (createLead_execute_ok input w Hok)
    as (w' & Hrun & Hh & Hrl & _ & _ & Hu & Hc).
  destruct (lead_assigned_fields input w) as (Fid & Fc & Fb & Fs).
  { intros k Hk. by eapply createLead_strips_assigned_keys. }
  destruct (ensure_effects_setup_only w LEADS_FILE) as (Hse & _).
  exists w', (stringify_object (lead_of cfg input w)).
  split.
  { unfold invoke. cbn [parameters decode execute createLeadTool]. by rewrite Hp. }
  repeat split; try done.
  - rewrite Hh, !appended_to_app, Hse. cbn. by rewrite decide_True.
  - intros m -> Hm. by eapply lead_urgency_default.
Qed.

(** C7 (amended).  The Lead a successful call appends gives back, field
    by field, every string the arguments supplied; a free-text field the
    arguments did not supply is absent from it; urgency, when not
    supplied, is stored as "normal"; and no field of it is [null]. *)
Theorem createLead_roundtrip (m : gmap string value) (w : World) r w' :
  invoke (createLeadTool cfg) (VObj m) w = (Ok r, w') ->
  exists line,
    read_lines LEADS_FILE w' = read_lines LEADS_FILE w ++ [line]
    /\ (forall k s, k ∈ createLead_parameters.*1 ->
        m !! k = Some (VStr s) -> field k line = Some (JStr s))
    /\ (forall k, k ∈ createLead_parameters.*1 -> k <> "urgency" ->
        m !! k = None -> field k line = None)
    /\ (m !! "urgency" = None -> field "urgency" line = Some (JStr "normal"))
    /\ (forall k, field k line <> Some JNull).
Proof.
  intros Hinv.
  destruct (invoke_createLead_inv _ _ _ _ Hinv) as (input & Hp & Hrun).
  destruct (createLead_execute_inv _ _ _ _ Hrun) as (_ & Hrl).
  cbn [parse_object] in Hp.
  exists (stringify_object (lead_of cfg input w)). split; [done|].
  repeat split.
  - intros k s Hk Hm. rewrite lead_argument_field by done.
    apply list_elem_of_fmap in Hk as ([k' t] & -> & Hin). cbn in Hm |- *.
    destruct (parse_keys_lookup _ _ _ _ _ createLead_keys_NoDup Hin Hp)
      as (r' & Hr & Hl).
    rewrite Hm in Hr, Hl. cbn [from_option id] in Hr.
    assert (r' = VStr s) as ->.
    { unfold createLead_parameters in Hin.
      repeat (apply elem_of_cons in Hin as [[= -> ->]|Hin];
              [cbn in Hr; repeat case_match; congruence|]).
      by apply elem_of_nil in Hin. }
    cbn in Hl. by rewrite Hl.
  - intros k Hk Hu Hm. rewrite lead_argument_field by done.
    apply list_elem_of_fmap in Hk as ([k' t] & -> & Hin). cbn in Hm, Hu |- *.
    destruct (parse_keys_lookup _ _ _ _ _ createLead_keys_NoDup Hin Hp)
      as (r' & Hr & Hl).
    rewrite Hm in Hr, Hl. cbn [from_option id] in Hr.
    assert (r' = VUndefined) as ->.
    { unfold createLead_parameters in Hin.
      repeat (apply elem_of_cons in Hin as [[= -> ->]|Hin];
              [cbn in Hr; congruence|]).
      by apply elem_of_nil in Hin. }
    cbn in Hl. by rewrite Hl.
  - by apply lead_urgency_default.
  - intros k. unfold stringify_object, field. rewrite lookup_omap.
    destruct (lead_of cfg input w !! k) as [v|] eqn:Hv; [|done].
    assert (v = VUndefined \/ exists s, v = VStr s) as [->|[s ->]]; [|done..].
    unfold lead_of, spread in Hv.
    apply lookup_insert_Some in Hv as [[_ <-]|[_ Hv]]; [eauto|].
    apply lookup_union_Some_raw in Hv as [Hv|[_ Hv]].
    { by eapply parse_keys_values. }
    repeat (apply lookup_insert_Some in Hv as [[_ <-]|[_ Hv]]; [eauto|]).
    by rewrite lookup_empty in Hv.
Qed.

(** C10.  Whatever the arguments of a successful call hold, the stored
    Lead's id, createdAt, businessName and source are the tool's own: the
    schema names none of these keys, the parsed arguments hold none of
    them, and the stored values are the drawn identifier, the instant
    read, the deployment's business name and the tag "twilio_call". *)
Theorem createLead_assigned_fields_are_the_tools (raw : value) (w : World) r w' :
  invoke (createLeadTool cfg) raw w = (Ok r, w') ->
  (forall k, k ∈ tool_assigned_keys -> k ∉ createLead_parameters.*1)
  /\ (exists input,
        parse_object createLead_parameters raw = Some input
        /\ forall k, k ∈ tool_assigned_keys -> input !! k = None)
  /\ exists line,
      read_lines LEADS_FILE w' = read_lines LEADS_FILE w ++ [line]
      /\ field "id" line = Some (JStr (randomUUID_at (uuid_draws w)))
      /\ field "createdAt" line = Some (JStr (toISOString_at (clock_reads w)))
      /\ field "businessName" line = Some (JStr (BUSINESS_NAME cfg))
      /\ field "source" line = Some (JStr "twilio_call").
Proof.
  intros Hinv.
  destruct (invoke_createLead_inv _ _ _ _ Hinv) as (input & Hp & Hrun).
  destruct (createLead_execute_inv _ _ _ _ Hrun) as (_ & Hrl).
  assert (forall k, k ∈ tool_assigned_keys -> input !! k = None) as Hstrip.
  { intros k Hk. by eapply createLead_strips_assigned_keys. }
  split; [|split].
  - intros k Hk. unfold tool_assigned_keys in Hk.
    repeat (apply elem_of_cons in Hk as [->|Hk];
            [by apply (bool_decide_unpack _)|]).
    by apply elem_of_nil in Hk.
  - eauto.
  - exists (stringify_object (lead_of cfg input w)). split; [done|].
    by apply lead_assigned_fields.
Qed.
End CreateLead.

Section CreateLeadWitnesses.
#[local] Existing Instance Demo.runtime.
Import Demo.

Lemma createLead_writes_one_lead_witness :
  exists w' line,
    invoke (createLeadTool cfg_minimal) burst_pipe_args fresh_world =
      (Ok (backgroundResult "Lead stored with id uuid-0"), w')
    /\ read_lines LEADS_FILE w' = [line]
    /\ field "urgency" line = Some (JStr "normal").
Proof.
  destruct (createLead_writes_one_lead cfg_minimal burst_pipe_args
              (<["issue" := VStr "burst pipe"]> {[ "urgency" := VStr "normal" ]})
              fresh_world)
    as (w' & line & Hrun & _ & _ & Hrl & _ & _ & _ & _ & _ & _ & Hurg).
  - reflexivity.
  - reflexivity.
  - exists w', line. split; [exact Hrun|]. split; [exact Hrl|].
    eapply Hurg; reflexivity.
Defined.

(** C7, as stated, fails on the empty argument set: urgency was not
    supplied, and the stored Lead has it, as "normal". *)
Lemma createLead_roundtrip_counterexample :
  exists r w' line,
    invoke (createLeadTool cfg_minimal) (VObj ∅) fresh_world = (Ok r, w')
    /\ read_lines LEADS_FILE w' = [line]
    /\ (∅ : gmap string value) !! "urgency" = None
    /\ field "urgency" line = Some (JStr "normal").
Proof.
  eexists _, _, _. split; [vm_compute; reflexivity|].
  split; [vm_compute; reflexivity|]. split; reflexivity.
Qed.

Lemma createLead_roundtrip_witness :
  exists line,
    read_lines LEADS_FILE (invoke (createLeadTool cfg_minimal) burst_pipe_args fresh_world).2
    = [line]
    /\ field "issue" line = Some (JStr "burst pipe")
    /\ field "notes" line = None.
Proof.
  destruct (createLead_roundtrip cfg_minimal
              (<["issue" := VStr "burst pipe"]> ∅) fresh_world
              (backgroundResult "Lead stored with id uuid-0")
              (invoke (createLeadTool cfg_minimal) burst_pipe_args fresh_world).2)
    as (line & Hrl & Hsup & Habs & _).
  - vm_compute. reflexivity.
  - exists line. split; [exact Hrl|]. split.
    + apply Hsup; [by apply (bool_decide_unpack _) | reflexivity].
    + apply Habs; [by apply (bool_decide_unpack _) | done | reflexivity].
Defined.

Lemma createLead_assigned_fields_are_the_tools_witness :
  exists line,
    read_lines LEADS_FILE (invoke (createLeadTool cfg_minimal) forged_args fresh_world).2
    = [line]
    /\ field "id" line = Some (JStr "uuid-0")
    /\ field "source" line = Some (JStr "twilio_call").
Proof.
  destruct (createLead_assigned_fields_are_the_tools cfg_minimal forged_args fresh_world
              (backgroundResult "Lead stored with id uuid-0")
              (invoke (createLeadTool cfg_minimal) forged_args fresh_world).2)
    as (_ & _ & line & Hrl & Hid & _ & _ & Hsrc).
  - vm_compute. reflexivity.
  - exists line. split; [exact Hrl|]. split; [exact Hid | exact Hsrc].
Defined.
End CreateLeadWitnesses.

(* ===================================================================== *)
(** ** escalate_to_oncall *)
(* ===================================================================== *)

Section Escalate.
Context `{Runtime}.
Variable cfg : Config.






(** What [execute] does on working storage. *)
Lemma escalate_execute_ok a w :
  storage_ok w = true ->
  exists w1,
    history w1 = history w ++ ensure_effects w ++
      [FsAppend EVENTS_FILE (escalation_line a w)]
    /\ read_lines EVENTS_FILE w1 = read_lines EVENTS_FILE w ++ [escalation_line a w]
    /\ escalate_execute cfg a w =
       match gateway_configured cfg with
       | None =>
           (Ok (backgroundResult "Twilio not configured; escalation SMS skipped."), w1)
       | Some c =>
           (match messages_create_at (length (sms_sent (history w)))
                    (escalation_request cfg a) with
            | Accepted sid => Ok (backgroundResult ("Escalation SMS sent: sid=" +:+ sid))
            | Rejected err => Throw err
            end,
            log_effect (SmsCreate c (escalation_request cfg a)) w1)
       end.
Proof.
  intros Hok.
  destruct (appendEvent_ok (escalation_event a) w Hok) as (w1 & Hrun & Hh & Hre & _).
  exists w1. repeat split; try done.
  unfold escalate_execute, gateway_configured.
  unfold mbind at 1, M_bind at 1. rewrite Hrun.
  destruct (twilioClient cfg) as [c|]; [|done].
  destruct (String.eqb (TWILIO_FROM_NUMBER cfg) ""); [done|].
  unfold mbind, M_bind, messages_create. fold (escalation_request cfg a).
  destruct (ensure_effects_setup_only w EVENTS_FILE) as (_ & Hss & _).
  rewrite Hh, !sms_sent_app, Hss. cbn [sms_sent omap list_omap app].
  rewrite app_nil_r.
  by destruct (messages_create_at _ _).
Qed.

End Escalate.

Section EscalateWitness.
#[local] Existing Instance Demo.runtime.
Import Demo.

End EscalateWitness.

(* ===================================================================== *)
(** ** The media-stream route and its two listeners *)
(* ===================================================================== *)

Section Bridge.
Context `{Runtime}.
Variable cfg : Config.


Lemma truthy_stringify v : truthy v = true -> is_Some (JSON_stringify v).
Proof. destruct v as [| | |[|]| | | |]; cbn; try done; eauto. Qed.

Lemma listener_line_fields l arg w :
  match l with
  | on_transport_event =>
      field "type" (listener_line l arg w) = Some (JStr "transport_event")
      /\ field "evtType" (listener_line l arg w) =
           JSON_stringify (or_else (optional_type arg) (VStr "unknown"))
      /\ is_Some (field "evtType" (listener_line l arg w))
  | on_error =>
      field "type" (listener_line l arg w) = Some (JStr "session_error")
      /\ field "err" (listener_line l arg w) = Some (JStr (String_ arg))
  end.
Proof.
  unfold listener_line, stringify_object, field, spread, listener_event.
  destruct l; rewrite !lookup_omap, !lookup_union; simplify_map_eq.
  - repeat split; try done.
    cbn. apply truthy_stringify. unfold or_else.
    by destruct (truthy (optional_type arg)) eqn:Ht.
  - done.
Qed.







End Bridge.

Section BridgeWitnesses.
#[local] Existing Instance Demo.runtime.
Import Demo.




End BridgeWitnesses.

(* ===================================================================== *)
(** ** What any run of the program may do to the world *)
(* ===================================================================== *)

Section EnvelopeFacts.
Context `{Runtime}.

Lemma grows_refl Q w : grows Q w w.
Proof.
  exists []. rewrite app_nil_r. repeat split; try done.
  intros p. by rewrite app_nil_r.
Qed.

Lemma grows_trans Q w1 w2 w3 : grows Q w1 w2 -> grows Q w2 w3 -> grows Q w1 w3.
Proof.
  intros (h1 & Hh1 & HQ1 & Hr1 & Hf1 & Hd1) (h2 & Hh2 & HQ2 & Hr2 & Hf2 & Hd2).
  exists (h1 ++ h2). repeat split.
  - by rewrite Hh2, Hh1, app_assoc.
  - by apply Forall_app.
  - intros p. by rewrite Hr2, Hr1, appended_to_app, app_assoc.
  - intros p Hp. apply Forall_app in Hp as [Hp1 Hp2].
    by rewrite Hf2, Hf1.
  - by rewrite Hd2.
Qed.

(** Drawing an identifier or reading the clock changes no file and adds no
    effect. *)
Lemma grows_counters Q w u c :
  grows Q w (mkWorld (fs w) (disk_faulty w) u c (history w)).
Proof.
  exists []. cbn. rewrite app_nil_r. repeat split; try done.
  intros p. unfold read_lines. cbn. by rewrite app_nil_r.
Qed.

(** One effect added to the history with the file system set to [f]. *)
Lemma grows_one Q e f w :
  Q e ->
  (forall p, read_lines p (set_fs f w) = read_lines p w ++ appended_to p [e]) ->
  (forall p, effect_path e <> Some p -> f !! p = fs w !! p) ->
  grows Q w (log_effect e (set_fs f w)).
Proof.
  intros HQ Hr Hf. exists [e]. split; [done|]. split; [by apply Forall_singleton|].
  split; [exact Hr|]. split; [|done].
  intros p Hp. rewrite Forall_singleton in Hp. cbn [fs log_effect set_fs]. by apply Hf.
Qed.

Lemma set_fs_same w : set_fs (fs w) w = w.
Proof. by destruct w. Qed.

Lemma keeps_ret {A} Q (a : A) : keeps Q (mret a).
Proof. intros w r w' [= <- <-]. apply grows_refl. Qed.

Lemma keeps_throw {A} Q e : keeps Q (throw e : M A).
Proof. intros w r w' [= <- <-]. apply grows_refl. Qed.

Lemma keeps_bind {A B} Q (m : M A) (f : A -> M B) :
  keeps Q m -> (forall a, keeps Q (f a)) -> keeps Q (m ≫= f).
Proof.
  intros Hm Hf w r w'. unfold mbind, M_bind.
  destruct (m w) as [[a|e] w1] eqn:Hrun.
  - intros Hrun2. eapply grows_trans; [by eapply Hm | by eapply Hf].
  - intros [= <- <-]. by eapply Hm.
Qed.

Lemma keeps_existsSync Q p : keeps Q (existsSync p).
Proof. intros w r w' [= <- <-]. apply grows_refl. Qed.

Lemma keeps_randomUUID Q : keeps Q randomUUID.
Proof. intros w r w' [= <- <-]. apply grows_counters. Qed.

Lemma keeps_now_iso Q : keeps Q now_iso.
Proof. intros w r w' [= <- <-]. apply grows_counters. Qed.

Lemma keeps_mkdirSync Q p : Q (FsMkdir p) -> keeps Q (mkdirSync p).
Proof.
  intros HQ w r w'. unfold mkdirSync.
  destruct (disk_faulty w); [intros [= <- <-]; apply grows_refl|].
  destruct (negb _); [intros [= <- <-]; apply grows_refl|].
  destruct (fs w !! p) as [[|ls]|] eqn:Hp; intros [= <- <-].
  - rewrite <- (set_fs_same w) at 2. apply grows_one; try done.
    intros q. rewrite set_fs_same. by rewrite app_nil_r.
  - apply grows_refl.
  - apply grows_one; try done.
    + intros q. unfold read_lines. cbn. rewrite app_nil_r.
      destruct (decide (p = q)) as [<-|Hne].
      * by rewrite lookup_insert_eq, Hp.
      * by rewrite lookup_insert_ne.
    + intros q Hq. cbn in Hq. rewrite lookup_insert_ne; [done|congruence].
Qed.

Lemma keeps_appendFileSync Q p line :
  Q (FsAppend p line) -> keeps Q (appendFileSync p line).
Proof.
  intros HQ w r w'. unfold appendFileSync.
  destruct (disk_faulty w); [intros [= <- <-]; apply grows_refl|].
  destruct (negb _); [intros [= <- <-]; apply grows_refl|].
  destruct (fs w !! p) as [[|ls]|] eqn:Hp; intros [= <- <-].
  - apply grows_refl.
  - apply grows_one; try done.
    + intros q. unfold read_lines, appended_to. cbn.
      destruct (decide (p = q)) as [<-|Hne].
      * by rewrite lookup_insert_eq, Hp.
      * rewrite lookup_insert_ne by done. by rewrite app_nil_r.
    + intros q Hq. cbn in Hq. rewrite lookup_insert_ne; [done|congruence].
  - apply grows_one; try done.
    + intros q. unfold read_lines, appended_to. cbn.
      destruct (decide (p = q)) as [<-|Hne].
      * by rewrite lookup_insert_eq, Hp.
      * rewrite lookup_insert_ne by done. by rewrite app_nil_r.
    + intros q Hq. cbn in Hq. rewrite lookup_insert_ne; [done|congruence].
Qed.

(** Creating a file only where none exists overwrites nothing. *)
Lemma keeps_create_if_missing Q p :
  Q (FsWrite p []) ->
  keeps Q (f ← existsSync p; if negb f then writeFileSync p [] else mret tt).
Proof.
  intros HQ w r w'. unfold mbind, M_bind, mret, M_ret, existsSync, exists_in, writeFileSync.
  destruct p as [|s p]; [cbn; intros [= <- <-]; apply grows_refl|].
  destruct (fs w !! _) as [n|] eqn:Hp; cbn [negb];
    [cbn; intros [= <- <-]; apply grows_refl|].
  destruct (disk_faulty w); [intros [= <- <-]; apply grows_refl|].
  destruct (negb _); [intros [= <- <-]; apply grows_refl|].
  rewrite Hp. intros [= <- <-].
  apply grows_one; try done.
  - intros q. unfold read_lines. cbn. rewrite app_nil_r.
    destruct (decide (s :: p = q)) as [<-|Hne].
    + by rewrite lookup_insert_eq, Hp.
    + by rewrite lookup_insert_ne.
  - intros q Hq. cbn in Hq. rewrite lookup_insert_ne; [done|congruence].
Qed.

Lemma keeps_ensureDataDir Q :
  Q (FsMkdir DATA_DIR) -> Q (FsWrite LEADS_FILE []) -> keeps Q ensureDataDir.
Proof.
  intros Hm Hw. unfold ensureDataDir.
  apply keeps_bind; [apply keeps_existsSync|]. intros d.
  apply keeps_bind.
  - destruct d; [apply keeps_ret | by apply keeps_mkdirSync].
  - intros _. by apply keeps_create_if_missing.
Qed.

Lemma keeps_appendEvent Q event :
  Q (FsMkdir DATA_DIR) -> Q (FsWrite LEADS_FILE []) ->
  (forall ts, Q (FsAppend EVENTS_FILE
                   (stringify_object (spread event {[ "ts" := VStr ts ]})))) ->
  keeps Q (appendEvent event).
Proof.
  intros Hm Hw Ha. unfold appendEvent.
  apply keeps_bind; [by apply keeps_ensureDataDir|]. intros _.
  apply keeps_bind; [apply keeps_now_iso|]. intros ts.
  by apply keeps_appendFileSync.
Qed.

Lemma keeps_appendLead Q lead :
  Q (FsMkdir DATA_DIR) -> Q (FsWrite LEADS_FILE []) ->
  Q (FsAppend LEADS_FILE (stringify_object lead)) ->
  keeps Q (appendLead lead).
Proof.
  intros Hm Hw Ha. unfold appendLead.
  apply keeps_bind; [by apply keeps_ensureDataDir|]. intros _.
  by apply keeps_appendFileSync.
Qed.

Lemma keeps_messages_create Q c m : Q (SmsCreate c m) -> keeps Q (messages_create c m).
Proof.
  intros HQ w r w'. unfold messages_create.
  destruct (messages_create_at _ _); intros [= <- <-];
    rewrite <- (set_fs_same w) at 2; (apply grows_one; [done| |done]);
    intros q; rewrite set_fs_same; by rewrite app_nil_r.
Qed.

Lemma keeps_backend_connect Q k : Q (SessionConnect k) -> keeps Q (backend_connect k).
Proof.
  intros HQ w r w'. unfold backend_connect.
  destruct (connect_at _); intros [= <- <-];
    rewrite <- (set_fs_same w) at 2; (apply grows_one; [done| |done]);
    intros q; rewrite set_fs_same; by rewrite app_nil_r.
Qed.

Lemma keeps_invoke {A} Q (t : Tool A) raw :
  (forall input a,
      parse_object (parameters _ t) raw = Some input ->
      decode _ t input = Some a ->
      keeps Q (execute _ t a)) ->
  keeps Q (invoke t raw).
Proof.
  intros Hex. unfold invoke.
  destruct (parse_object (parameters _ t) raw) as [input|] eqn:Hp; [|apply keeps_throw].
  destruct (decode _ t input) as [a|] eqn:Hd; [|apply keeps_throw].
  by eapply Hex.
Qed.
End EnvelopeFacts.

Section ProgramEnvelope.
Context `{Runtime}.
Variable cfg : Config.

Lemma allowed_mkdir : allowed cfg (FsMkdir DATA_DIR).
Proof. done. Qed.

Lemma allowed_create : allowed cfg (FsWrite LEADS_FILE []).
Proof. done. Qed.

(** An event object with a type of the closed set and no [ts] of its own
    gives a well-formed line, whatever the instant. *)
Lemma event_line_ok_of (event : gmap string value) t ts :
  event !! "type" = Some (VStr t) ->
  t ∈ event_types ->
  event !! "ts" = None ->
  event_line_ok (stringify_object (spread event {[ "ts" := VStr ts ]})).
Proof.
  intros Ht Hin Hts. unfold event_line_ok, stringify_object, field, spread.
  rewrite !lookup_omap. split.
  - exists t. split; [|done]. by rewrite (lookup_union_Some_l _ _ _ _ Ht).
  - exists ts. rewrite lookup_union_r by done. by rewrite lookup_singleton_eq.
Qed.

Lemma keeps_event (event : gmap string value) t :
  event !! "type" = Some (VStr t) ->
  t ∈ event_types ->
  event !! "ts" = None ->
  keeps (allowed cfg) (appendEvent event).
Proof.
  intros Ht Hin Hts. apply keeps_appendEvent; [done..|].
  intros ts. right. split; [done|]. by eapply event_line_ok_of.
Qed.

Lemma parse_urgency v r :
  parse (ZDefault (ZEnum ["low"; "normal"; "emergency"]) (VStr "normal")) v = Some r ->
  exists u, r = VStr u /\ u ∈ ["low"; "normal"; "emergency"].
Proof.
  destruct v; cbn; try done; case_bool_decide; try done; intros [= <-]; eauto.
Qed.

Lemma createLead_keys_are_lead_keys k :
  k ∈ createLead_parameters.*1 -> k ∈ lead_keys.
Proof.
  unfold createLead_parameters. cbn. intros Hk.
  repeat (apply elem_of_cons in Hk as [->|Hk]; [by apply (bool_decide_unpack _)|]).
  by apply elem_of_nil in Hk.
Qed.

(** The object create_lead builds from parsed arguments is a [Lead]. *)
Lemma lead_line_ok_parsed (m input : gmap string value) id c :
  parse_keys createLead_parameters m = Some input ->
  lead_line_ok cfg
    (stringify_object
       (<["source" := VStr "twilio_call"]>
          (spread input
             (<["businessName" := VStr (BUSINESS_NAME cfg)]>
                (<["createdAt" := VStr c]> (<["id" := VStr id]> ∅)))))).
Proof.
  intros Hp.
  assert (forall k, k ∉ createLead_parameters.*1 -> input !! k = None) as Hstrip.
  { intros k Hk. by eapply parse_keys_strips. }
  assert (input !! "id" = None) as Hid
    by (apply Hstrip; by apply (bool_decide_unpack _)).
  assert (input !! "createdAt" = None) as Hc
    by (apply Hstrip; by apply (bool_decide_unpack _)).
  assert (input !! "businessName" = None) as Hb
    by (apply Hstrip; by apply (bool_decide_unpack _)).
  unfold lead_line_ok, stringify_object, field, spread.
  split; [|split; [|split; [|split; [|split]]]].
  - exists id. rewrite lookup_omap, lookup_insert_ne, lookup_union_r by done.
    by simplify_map_eq.
  - exists c. rewrite lookup_omap, lookup_insert_ne, lookup_union_r by done.
    by simplify_map_eq.
  - rewrite lookup_omap, lookup_insert_ne, lookup_union_r by done.
    by simplify_map_eq.
  - by rewrite lookup_omap, lookup_insert_eq.
  - destruct (parse_keys_lookup _ _ _ _ _ createLead_keys_NoDup urgency_in_shape Hp)
      as (r & Hr & Hl).
    apply parse_urgency in Hr as (u & -> & Hu). cbn in Hl.
    exists u. split; [|done].
    rewrite lookup_omap, lookup_insert_ne by done.
    by rewrite (lookup_union_Some_l _ _ _ _ Hl).
  - intros k j. rewrite lookup_omap. intros Hj.
    apply bind_Some in Hj as (v & Hv & Hj).
    assert (k ∈ lead_keys /\ (v = VUndefined \/ exists s, v = VStr s))
      as (Hk & [->|[s ->]]); [|done|injection Hj as <-; eauto].
    apply lookup_insert_Some in Hv as [[<- <-]|[_ Hv]].
    { split; [by apply (bool_decide_unpack _) | eauto]. }
    apply lookup_union_Some_raw in Hv as [Hv|[_ Hv]].
    { split; [|by eapply parse_keys_values].
      apply createLead_keys_are_lead_keys.
      destruct (decide (k ∈ createLead_parameters.*1)) as [|Hn]; [done|].
      by rewrite (Hstrip k Hn) in Hv. }
    repeat (apply lookup_insert_Some in Hv as [[<- <-]|[_ Hv]];
            [split; [by apply (bool_decide_unpack _) | eauto]|]).
    by rewrite lookup_empty in Hv.
Qed.

Lemma keeps_gateway_tail (c : option TwilioClient) (skipped : ToolResult)
      (request : Sms) (sent : string -> ToolResult) :
  c = twilioClient cfg ->
  from request = TWILIO_FROM_NUMBER cfg ->
  keeps (allowed cfg)
    (match c with
     | None => mret skipped
     | Some client =>
         if String.eqb (TWILIO_FROM_NUMBER cfg) "" then mret skipped
         else sid ← messages_create client request; mret (sent sid)
     end).
Proof.
  intros Hc Hfrom. destruct c as [client|]; [|apply keeps_ret].
  destruct (String.eqb (TWILIO_FROM_NUMBER cfg) "") eqn:Hf; [apply keeps_ret|].
  apply keeps_bind; [|intros sid; apply keeps_ret].
  apply keeps_messages_create. split; [|done].
  unfold gateway_configured. by rewrite <- Hc, Hf.
Qed.

(** Every way into the program stays within the allowed effects. *)
Lemma entry_keeps A (m : M A) : entry cfg A m -> keeps (allowed cfg) m.
Proof.
  destruct 1 as [raw|raw|raw|raw|l arg|].
  - apply keeps_invoke. cbn [parameters decode execute createLeadTool].
    intros input a Hp [= <-]. destruct raw; try done. cbn [parse_object] in Hp.
    unfold createLead_execute.
    apply keeps_bind; [apply keeps_randomUUID|]. intros id.
    apply keeps_bind; [apply keeps_now_iso|]. intros c.
    apply keeps_bind; [|intros _; apply keeps_ret].
    apply keeps_appendLead; [done..|]. left. split; [done|].
    by eapply lead_line_ok_parsed.
  - apply keeps_invoke. cbn [parameters decode execute sendSmsTool].
    intros input a _ _. unfold sendSms_execute, assertE164.
    apply keeps_bind.
    { destruct (_ || _); [apply keeps_throw | apply keeps_ret]. }
    intros _. apply keeps_bind.
    { apply (keeps_event _ "sms_attempt"); [done | by apply (bool_decide_unpack _) | done]. }
    intros _. by apply keeps_gateway_tail.
  - apply keeps_invoke. cbn [parameters decode execute escalateTool].
    intros input a _ _. unfold escalate_execute.
    apply keeps_bind.
    { apply (keeps_event _ "escalation"); [done | by apply (bool_decide_unpack _) | done]. }
    intros _. by apply keeps_gateway_tail.
  - apply keeps_invoke. cbn [parameters decode execute logSummaryTool].
    intros input a _ _. unfold logSummary_execute.
    apply keeps_bind; [|intros _; apply keeps_ret].
    apply (keeps_event _ "call_summary"); [done | by apply (bool_decide_unpack _) | done].
  - destruct l; cbn [run_listener].
    + apply (keeps_event _ "transport_event");
        [done | by apply (bool_decide_unpack _) | done].
    + apply (keeps_event _ "session_error");
        [done | by apply (bool_decide_unpack _) | done].
  - unfold media_stream.
    apply keeps_bind; [by apply keeps_backend_connect|]. intros _.
    apply keeps_bind; [|intros _; apply keeps_ret].
    apply (keeps_event _ "realtime_connected");
      [done | by apply (bool_decide_unpack _) | done].
Qed.

Lemma LEADS_FILE_ne_EVENTS_FILE : LEADS_FILE <> EVENTS_FILE.
Proof. done. Qed.

Lemma allowed_events h :
  Forall (allowed cfg) h -> Forall event_line_ok (appended_to EVENTS_FILE h).
Proof.
  induction 1 as [|e h He _ IH]; [constructor|].
  destruct e as [| |p line| |]; try exact IH.
  unfold appended_to. cbn. fold (appended_to EVENTS_FILE h).
  case_decide as Hp; [|exact IH]. subst p.
  destruct He as [[Hbad _]|[_ Hok]]; [done|]. by constructor.
Qed.

Lemma allowed_leads h :
  Forall (allowed cfg) h -> Forall (lead_line_ok cfg) (appended_to LEADS_FILE h).
Proof.
  induction 1 as [|e h He _ IH]; [constructor|].
  destruct e as [| |p line| |]; try exact IH.
  unfold appended_to. cbn. fold (appended_to LEADS_FILE h).
  case_decide as Hp; [|exact IH]. subst p.
  destruct He as [[_ Hok]|[Hbad _]]; [|done]. by constructor.
Qed.

Lemma allowed_sms h :
  Forall (allowed cfg) h ->
  Forall (fun m => from m = TWILIO_FROM_NUMBER cfg) (sms_sent h)
  /\ (gateway_configured cfg = None -> sms_sent h = []).
Proof.
  induction 1 as [|e h He _ [IH1 IH2]]; [by split|].
  destruct e as [| | |c m|]; try (split; [exact IH1 | exact IH2]).
  destruct He as [Hc Hfrom]. split.
  - by constructor.
  - intros Hnone. by rewrite Hnone in Hc.
Qed.

Lemma allowed_paths h p :
  Forall (allowed cfg) h ->
  p ∉ [DATA_DIR; LEADS_FILE; EVENTS_FILE] ->
  Forall (fun e => effect_path e <> Some p) h.
Proof.
  intros Hall Hp. eapply Forall_impl; [exact Hall|].
  intros e He Heq. apply Hp.
  destruct e as [q|q content|q line| |]; try done; injection Heq as ->; cbn in He.
  - subst p. repeat constructor.
  - destruct He as [-> _]. repeat constructor.
  - destruct He as [[-> _]|[-> _]]; repeat constructor.
Qed.
End ProgramEnvelope.

Section Invariants.
Context `{Runtime}.
Variable cfg : Config.

Lemma run_steps_grow w w' : run_steps cfg w w' -> grows (allowed cfg) w w'.
Proof.
  induction 1 as [w|A m w r w1 w2 He Hrun _ IH]; [apply grows_refl|].
  eapply grows_trans; [|exact IH]. by eapply entry_keeps.
Qed.

(** X1.  The two stores are append-only: after any sequence of tool calls,
    listener runs and route runs, whatever their arguments and whether they
    returned or threw, every file holds what it held before, followed by
    the lines appended since. *)
Theorem stored_lines_are_only_appended (w w' : World) :
  run_steps cfg w w' ->
  forall p, exists added, read_lines p w' = read_lines p w ++ added.
Proof.
  intros Hrun p. destruct (run_steps_grow w w' Hrun) as (h & _ & _ & Hr & _).
  by exists (appended_to p h).
Qed.

(** X2.  Every line such a sequence adds to the event log has a [type]
    among sms_attempt, escalation, call_summary, transport_event,
    session_error and realtime_connected, and a [ts] string. *)
Theorem event_lines_are_typed_and_stamped (w w' : World) :
  run_steps cfg w w' ->
  exists new,
    read_lines EVENTS_FILE w' = read_lines EVENTS_FILE w ++ new
    /\ Forall event_line_ok new.
Proof.
  intros Hrun. destruct (run_steps_grow w w' Hrun) as (h & _ & Hall & Hr & _).
  exists (appended_to EVENTS_FILE h). split; [done|]. by apply (allowed_events cfg).
Qed.

(** X3.  Every line such a sequence adds to the lead store is a [Lead]:
    its fields are among those of the type, each one a string; id,
    createdAt, the deployment's business name and the source tag are
    present, and so is an urgency that is low, normal or emergency. *)
Theorem lead_lines_are_leads (w w' : World) :
  run_steps cfg w w' ->
  exists new,
    read_lines LEADS_FILE w' = read_lines LEADS_FILE w ++ new
    /\ Forall (lead_line_ok cfg) new.
Proof.
  intros Hrun. destruct (run_steps_grow w w' Hrun) as (h & _ & Hall & Hr & _).
  exists (appended_to LEADS_FILE h). split; [done|]. by apply allowed_leads.
Qed.

(** X4.  Such a sequence never reaches the messaging gateway unless a
    client was built and a sender number is set, and every message it does
    hand to the gateway is sent from the configured sender number. *)
Theorem gateway_is_used_only_as_configured (w w' : World) :
  run_steps cfg w w' ->
  exists new,
    sms_sent (history w') = sms_sent (history w) ++ new
    /\ Forall (fun m => from m = TWILIO_FROM_NUMBER cfg) new
    /\ (gateway_configured cfg = None -> new = []).
Proof.
  intros Hrun. destruct (run_steps_grow w w' Hrun) as (h & Hh & Hall & _).
  exists (sms_sent h). split; [by rewrite Hh, sms_sent_app|].
  by apply allowed_sms.
Qed.

(** X5.  Such a sequence touches nothing on the disk but the data
    directory, leads.jsonl and events.jsonl: every other path is as it
    was. *)
Theorem only_the_store_paths_are_touched (w w' : World) (p : path) :
  run_steps cfg w w' ->
  p ∉ [DATA_DIR; LEADS_FILE; EVENTS_FILE] ->
  fs w' !! p = fs w !! p.
Proof.
  intros Hrun Hp. destruct (run_steps_grow w w' Hrun) as (h & _ & Hall & _ & Hf & _).
  apply Hf. by eapply allowed_paths.
Qed.
End Invariants.

Section InvariantWitnesses.
#[local] Existing Instance Demo.runtime.
Import Demo.

(** A forged create_lead, a text message and a transport event, one after
    another on a world already in use. *)
Lemma demo_steps :
  exists w', run_steps cfg_full used_world w'.
Proof.
  eexists.
  eapply steps_next;
    [apply (entry_create_lead cfg_full forged_args) | apply surjective_pairing |].
  eapply steps_next;
    [apply (entry_send_sms cfg_full
              (VObj (<["to" := VStr "+15551234567"]> (<["message" := VStr "hi"]> ∅))))
    | apply surjective_pairing |].
  eapply steps_next;
    [apply (entry_listener cfg_full on_transport_event VNull)
    | apply surjective_pairing |].
  apply steps_done.
Defined.

Lemma stored_lines_are_only_appended_witness :
  exists w' added,
    read_lines LEADS_FILE w' = read_lines LEADS_FILE used_world ++ added.
Proof.
  destruct demo_steps as [w' Hrun]. exists w'.
  exact (stored_lines_are_only_appended cfg_full used_world w' Hrun LEADS_FILE).
Defined.

Lemma event_lines_are_typed_and_stamped_witness :
  exists w' new,
    read_lines EVENTS_FILE w' = read_lines EVENTS_FILE used_world ++ new
    /\ Forall event_line_ok new.
Proof.
  destruct demo_steps as [w' Hrun]. exists w'.
  exact (event_lines_are_typed_and_stamped cfg_full used_world w' Hrun).
Defined.

Lemma lead_lines_are_leads_witness :
  exists w' new,
    read_lines LEADS_FILE w' = read_lines LEADS_FILE used_world ++ new
    /\ Forall (lead_line_ok cfg_full) new.
Proof.
  destruct demo_steps as [w' Hrun]. exists w'.
  exact (lead_lines_are_leads cfg_full used_world w' Hrun).
Defined.

Lemma gateway_is_used_only_as_configured_witness :
  exists w' new,
    sms_sent (history w') = sms_sent (history used_world) ++ new
    /\ Forall (fun m => from m = "+15550002222") new.
Proof.
  destruct demo_steps as [w' Hrun]. exists w'.
  destruct (gateway_is_used_only_as_configured cfg_full used_world w' Hrun)
    as (new & Hs & Hf & _).
  by exists new.
Defined.

Lemma only_the_store_paths_are_touched_witness :
  exists w', fs w' !! ["data"; "notes.txt"] = Some (File [JStr "keep"]).
Proof.
  destruct demo_steps as [w' Hrun]. exists w'.
  transitivity (fs used_world !! (["data"; "notes.txt"] : path)); [|reflexivity].
  apply (only_the_store_paths_are_touched cfg_full used_world w'
           ["data"; "notes.txt"] Hrun).
  intros Hin.
  repeat (apply elem_of_cons in Hin as [Hin|Hin]; [discriminate|]).
  by apply elem_of_nil in Hin.
Defined.
End InvariantWitnesses.

(* ===================================================================== *)
(** ** Arguments the schemas refuse *)
(* ===================================================================== *)

Section Rejection.
Context `{Runtime}.


Lemma parse_keys_fails sh (m : gmap string value) k t :
  (k, t) ∈ sh ->
  parse t (default VUndefined (m !! k)) = None ->
  parse_keys sh m = None.
Proof.
  induction sh as [|[k' t'] sh IH]; intros Hin Hfail.
  - by apply elem_of_nil in Hin.
  - cbn. apply elem_of_cons in Hin as [[= <- <-]|Hin].
    + by rewrite Hfail.
    + rewrite (IH Hin Hfail). by destruct (parse t' _).
Qed.

Lemma invoke_rejected {A} (t : Tool A) raw w :
  parse_object (parameters _ t) raw = None ->
  invoke t raw w = (Throw INVALID_INPUT, w).
Proof. intros Hp. unfold invoke. by rewrite Hp. Qed.


Section WithConfig.
Variable cfg : Config.


(** X8.  A call that leaves out a required argument (the destination or
    the message of send_sms_to_number, the summary of log_call_summary), or
    gives create_lead an urgency other than low, normal or emergency, is
    refused before anything happens. *)
Theorem missing_or_unknown_arguments_are_refused (m : gmap string value) (w : World) :
  (m !! "to" = None \/ m !! "message" = None ->
   invoke (sendSmsTool cfg) (VObj m) w = (Throw INVALID_INPUT, w))
  /\ (m !! "summary" = None ->
      invoke logSummaryTool (VObj m) w = (Throw INVALID_INPUT, w))
  /\ (forall u,
        m !! "urgency" = Some (VStr u) ->
        u ∉ ["low"; "normal"; "emergency"] ->
        invoke (createLeadTool cfg) (VObj m) w = (Throw INVALID_INPUT, w)).
Proof.
  split; [|split].
  - intros [Hm|Hm]; apply invoke_rejected; cbn [parse_object].
    + apply (parse_keys_fails _ _ "to" (ZString None));
        [unfold sendSmsTool, sendSms_parameters; cbn; repeat constructor|].
      by rewrite Hm.
    + apply (parse_keys_fails _ _ "message" (ZString (Some 480)));
        [unfold sendSmsTool, sendSms_parameters; cbn; repeat constructor|].
      by rewrite Hm.
  - intros Hm. apply invoke_rejected. cbn [parse_object].
    apply (parse_keys_fails _ _ "summary" (ZString (Some 2000)));
      [unfold logSummaryTool, logSummary_parameters; cbn; repeat constructor|].
    by rewrite Hm.
  - intros u Hm Hu. apply invoke_rejected. cbn [parse_object].
    eapply parse_keys_fails; [apply urgency_in_shape|].
    rewrite Hm. cbn. by rewrite bool_decide_eq_false_2.
Qed.
End WithConfig.
End Rejection.

Section RejectionWitnesses.
#[local] Existing Instance Demo.runtime.
Import Demo.



Lemma missing_or_unknown_arguments_are_refused_witness :
  invoke (createLeadTool cfg_full) (VObj (<["urgency" := VStr "urgent"]> ∅)) used_world
  = (Throw INVALID_INPUT, used_world).
Proof.
  destruct (missing_or_unknown_arguments_are_refused cfg_full
              (<["urgency" := VStr "urgent"]> ∅) used_world) as (_ & _ & Hurg).
  apply (Hurg "urgent"); [reflexivity|].
  intros Hin. repeat (apply elem_of_cons in Hin as [Hin|Hin]; [discriminate|]).
  by apply elem_of_nil in Hin.
Defined.
End RejectionWitnesses.

(* ===================================================================== *)
(** ** log_call_summary, the gateway's answers, startup messages *)
(* ===================================================================== *)

Section MoreTools.
Context `{Runtime}.
Variable cfg : Config.

Lemma summary_line_fields summary w :
  field "type" (summary_line summary w) = Some (JStr "call_summary")
  /\ field "summary" (summary_line summary w) = Some (JStr summary)
  /\ field "ts" (summary_line summary w) = Some (JStr (toISOString_at (clock_reads w))).
Proof.
  unfold summary_line, stringify_object, field, spread.
  rewrite !lookup_omap, !lookup_union. repeat split; by simplify_map_eq.
Qed.

(** X9.  On working storage, log_call_summary with a summary of at most
    2000 characters appends exactly one call_summary event holding the
    whole summary, writes no lead, makes no gateway call, and returns
    "Summary logged.". *)
Theorem logSummary_logs_the_whole_summary
        (m : gmap string value) (summary : string) (w : World) :
  m !! "summary" = Some (VStr summary) ->
  str_length summary <= 2000 ->
  storage_ok w = true ->
  exists w',
    invoke logSummaryTool (VObj m) w = (Ok (backgroundResult "Summary logged."), w')
    /\ history w' = history w ++ ensure_effects w ++
         [FsAppend EVENTS_FILE (summary_line summary w)]
    /\ read_lines EVENTS_FILE w' = read_lines EVENTS_FILE w ++ [summary_line summary w]
    /\ read_lines LEADS_FILE w' = read_lines LEADS_FILE w
    /\ sms_sent (history w') = sms_sent (history w)
    /\ field "type" (summary_line summary w) = Some (JStr "call_summary")
    /\ field "summary" (summary_line summary w) = Some (JStr summary).
Proof.
  intros Hm Hlen Hok.
  destruct (appendEvent_ok
              (<["summary" := VStr summary]> (<["type" := VStr "call_summary"]> ∅)) w Hok)
    as (w' & Hrun & Hh & Hre & Hrl & _).
  destruct (summary_line_fields summary w) as (Ft & Fs & _).
  destruct (ensure_effects_setup_only w EVENTS_FILE) as (_ & Hss & _).
  exists w'. split.
  { unfold invoke, parse_object, logSummaryTool, parameters, decode, execute,
      logSummary_parameters, parse_keys, parse.
    rewrite Hm. cbn [from_option id is_undefined andb].
    rewrite (proj2 (Nat.ltb_ge _ _) Hlen). cbn [is_undefined andb].
    unfold logSummary_decode. rewrite lookup_insert_eq.
    unfold logSummary_execute, mbind, M_bind. by rewrite Hrun. }
  repeat split; try done.
  rewrite Hh, !sms_sent_app, Hss. cbn. by rewrite app_nil_r.
Qed.

(** X10.  When the provider rejects the message, the tool throws the
    provider's error after the event has been logged and after exactly one
    request: the attempt (or escalation) event stays in the log and no
    second request is made. *)
Theorem gateway_rejection_is_thrown_after_logging (c : TwilioClient) (w : World) :
  gateway_configured cfg = Some c ->
  storage_ok w = true ->
  (forall to message err,
      startsWith to "+" = true /\ 11 <= str_length to ->
      messages_create_at (length (sms_sent (history w))) (sms_request cfg to message)
      = Rejected err ->
      exists w',
        sendSms_execute cfg (mkSmsArgs to message) w = (Throw err, w')
        /\ history w' = history w ++ ensure_effects w ++
             [FsAppend EVENTS_FILE (sms_attempt_line to message w);
              SmsCreate c (sms_request cfg to message)])
  /\ (forall a err,
        messages_create_at (length (sms_sent (history w))) (escalation_request cfg a)
        = Rejected err ->
        exists w',
          escalate_execute cfg a w = (Throw err, w')
          /\ history w' = history w ++ ensure_effects w ++
               [FsAppend EVENTS_FILE (escalation_line a w);
                SmsCreate c (escalation_request cfg a)]).
Proof.
  intros Hc Hok. split.
  - intros to message err Hgood Hrej. apply e164_ok_true in Hgood.
    destruct (sendSms_execute_valid cfg to message w Hgood Hok)
      as (w1 & _ & Hh & _ & Hrun).
    destruct (ensure_effects_setup_only w EVENTS_FILE) as (_ & Hss & _).
    rewrite Hc in Hrun.
    rewrite Hh, !sms_sent_app, Hss in Hrun. cbn [sms_sent omap list_omap app] in Hrun.
    rewrite app_nil_r, Hrej in Hrun.
    eexists. split; [exact Hrun|]. cbn [history log_effect].
    by rewrite Hh, <- !app_assoc.
  - intros a err Hrej.
    destruct (escalate_execute_ok cfg a w Hok) as (w1 & Hh & _ & Hrun).
    rewrite Hc, Hrej in Hrun.
    eexists. split; [exact Hrun|]. cbn [history log_effect].
    by rewrite Hh, <- !app_assoc.
Qed.


(** The session of the route emitting "transport_event": the transport
    listener runs, and only it. *)
Lemma emit_bridge_transport arg w :
  emit bridge_session "transport_event" arg w =
  match appendEvent (listener_event on_transport_event arg) w with
  | (Ok _, w') => (Ok tt, w')
  | (Throw e, w') => (Throw e, w')
  end.
Proof.
  unfold emit, bridge_session. cbn [listeners run_listeners].
  change (String.eqb "transport_event" "transport_event") with true.
  change (String.eqb "error" "transport_event") with false.
  change (run_listener on_transport_event arg)
    with (appendEvent (listener_event on_transport_event arg)).
  unfold mbind, M_bind, mret, M_ret. cbn beta iota.
  destruct (appendEvent _ w) as [[[]|e] w']; reflexivity.
Qed.

(** X12.  A transport event emitted by the route's session appends
    exactly one transport_event line, and no session_error line.  Its
    evtType is the event's own [type] when that is a non-empty string, and
    "unknown" when the event is not an object or has no [type] or an empty
    one. *)
Theorem transport_event_is_logged_with_its_type (arg : value) (w : World) :
  storage_ok w = true ->
  exists w' line,
    emit bridge_session "transport_event" arg w = (Ok tt, w')
    /\ history w' = history w ++ ensure_effects w ++ [FsAppend EVENTS_FILE line]
    /\ field "type" line = Some (JStr "transport_event")
    /\ (forall (m : gmap string value) t,
          arg = VObj m -> m !! "type" = Some (VStr t) -> t <> "" ->
          field "evtType" line = Some (JStr t))
    /\ ((forall m, arg <> VObj m) -> field "evtType" line = Some (JStr "unknown"))
    /\ (forall m : gmap string value,
          arg = VObj m -> m !! "type" = None \/ m !! "type" = Some (VStr "") ->
          field "evtType" line = Some (JStr "unknown")).
Proof.
  intros Hok. rewrite emit_bridge_transport.
  destruct (appendEvent_ok (listener_event on_transport_event arg) w Hok)
    as (w' & -> & Hh & _).
  exists w', (listener_line on_transport_event arg w).
  destruct (listener_line_fields on_transport_event arg w) as (Ft & Fe & _).
  split; [done|]. split; [done|]. split; [done|]. rewrite Fe.
  split; [|split].
  - intros m t -> Hm Ht. unfold or_else, optional_type. rewrite Hm.
    cbn [from_option id truthy]. apply String.eqb_neq in Ht. by rewrite Ht.
  - intros Hno. destruct arg; try done. by destruct (Hno m).
  - intros m -> [Hm|Hm]; unfold or_else, optional_type; by rewrite Hm.
Qed.
End MoreTools.

Section MoreStartup.
Context `{Runtime}.

(** X13.  The line on the error console names the first required
    variable that is unset or empty: ONCALL_PHONE if it is, whatever
    OPENAI_API_KEY is, and OPENAI_API_KEY otherwise. *)
Theorem startup_names_the_first_missing_variable (env : gmap string string) :
  (unset env "ONCALL_PHONE" = true ->
   main env = Exited 1 "Missing env var: ONCALL_PHONE")
  /\ (unset env "ONCALL_PHONE" = false ->
      unset env "OPENAI_API_KEY" = true ->
      main env = Exited 1 "Missing env var: OPENAI_API_KEY").
Proof.
  split.
  - intros Ho. unfold main, mbind, boot_bind. by rewrite (mustEnv_unset _ _ Ho).
  - intros Ho Hk. unfold main, mbind, boot_bind.
    destruct (mustEnv_set _ _ Ho) as (v & _ & _ & ->).
    by rewrite (mustEnv_unset _ _ Hk).
Qed.

Lemma env_or_set env name d :
  unset env name = false ->
  exists v, env !! name = Some v /\ v <> "" /\ env_or env name d = v.
Proof.
  unfold unset, env_or. destruct (env !! name) as [v|]; [|done].
  intros Hv. rewrite Hv. exists v. repeat split. by intros ->.
Qed.

(** X14.  In a started process the gateway is usable exactly when
    TWILIO_ACCOUNT_SID, TWILIO_AUTH_TOKEN and TWILIO_FROM_NUMBER are all
    set and non-empty; the client then carries that SID and token, and the
    sender number is that of the environment. *)
Theorem gateway_configured_iff_all_three_set (env : gmap string string) (cfg : Config) :
  main env = Running cfg ->
  (gateway_configured cfg = None <->
   (unset env "TWILIO_ACCOUNT_SID" = true
    \/ unset env "TWILIO_AUTH_TOKEN" = true
    \/ unset env "TWILIO_FROM_NUMBER" = true))
  /\ (forall c,
        gateway_configured cfg = Some c ->
        env !! "TWILIO_ACCOUNT_SID" = Some (accountSid c)
        /\ env !! "TWILIO_AUTH_TOKEN" = Some (authToken c)
        /\ env !! "TWILIO_FROM_NUMBER" = Some (TWILIO_FROM_NUMBER cfg)).
Proof.
  intros Hmain.
  assert (forall c, gateway_configured cfg = Some c ->
            unset env "TWILIO_ACCOUNT_SID" = false
            /\ unset env "TWILIO_AUTH_TOKEN" = false
            /\ unset env "TWILIO_FROM_NUMBER" = false) as Hset.
  { intros c Hc.
    destruct (unset env "TWILIO_ACCOUNT_SID") eqn:Hs;
      [by rewrite (gateway_unconfigured_after_main env cfg Hmain) in Hc; auto|].
    destruct (unset env "TWILIO_AUTH_TOKEN") eqn:Ht;
      [by rewrite (gateway_unconfigured_after_main env cfg Hmain) in Hc; auto|].
    destruct (unset env "TWILIO_FROM_NUMBER") eqn:Hf;
      [by rewrite (gateway_unconfigured_after_main env cfg Hmain) in Hc; auto|].
    done. }
  assert (forall c, gateway_configured cfg = Some c ->
            env !! "TWILIO_ACCOUNT_SID" = Some (accountSid c)
            /\ env !! "TWILIO_AUTH_TOKEN" = Some (authToken c)
            /\ env !! "TWILIO_FROM_NUMBER" = Some (TWILIO_FROM_NUMBER cfg)) as Hval.
  { intros c Hc. destruct (Hset c Hc) as (Hs & Ht & Hf).
    unfold main, mbind, boot_bind, mret, boot_ret in Hmain.
    destruct (mustEnv env "ONCALL_PHONE"); [|done].
    destruct (mustEnv env "OPENAI_API_KEY"); [|done].
    injection Hmain as <-. unfold gateway_configured in Hc.
    cbn [twilioClient TWILIO_FROM_NUMBER] in Hc |- *.
    destruct (env_or_set env "TWILIO_ACCOUNT_SID" "" Hs) as (s & Hls & Hns & Hes).
    destruct (env_or_set env "TWILIO_AUTH_TOKEN" "" Ht) as (t & Hlt & Hnt & Het).
    destruct (env_or_set env "TWILIO_FROM_NUMBER" "" Hf) as (f & Hlf & Hnf & Hef).
    rewrite Hes, Het, Hef in Hc. rewrite Hef.
    apply String.eqb_neq in Hns, Hnt, Hnf. rewrite Hns, Hnt, Hnf in Hc.
    cbn in Hc. by injection Hc as <-. }
  split; [|exact Hval]. split.
  - intros Hnone.
    destruct (unset env "TWILIO_ACCOUNT_SID") eqn:Hs; [auto|].
    destruct (unset env "TWILIO_AUTH_TOKEN") eqn:Ht; [auto|].
    destruct (unset env "TWILIO_FROM_NUMBER") eqn:Hf; [auto|].
    exfalso.
    unfold main, mbind, boot_bind, mret, boot_ret in Hmain.
    destruct (mustEnv env "ONCALL_PHONE"); [|done].
    destruct (mustEnv env "OPENAI_API_KEY"); [|done].
    injection Hmain as <-. unfold gateway_configured in Hnone.
    cbn [twilioClient TWILIO_FROM_NUMBER] in Hnone.
    destruct (env_or_set env "TWILIO_ACCOUNT_SID" "" Hs) as (s & _ & Hns & Hes).
    destruct (env_or_set env "TWILIO_AUTH_TOKEN" "" Ht) as (t & _ & Hnt & Het).
    destruct (env_or_set env "TWILIO_FROM_NUMBER" "" Hf) as (f & _ & Hnf & Hef).
    rewrite Hes, Het, Hef in Hnone.
    apply String.eqb_neq in Hns, Hnt, Hnf. by rewrite Hns, Hnt, Hnf in Hnone.
  - by apply gateway_unconfigured_after_main.
Qed.
End MoreStartup.

Section MoreWitnesses.
#[local] Existing Instance Demo.runtime.
Import Demo.

Lemma logSummary_logs_the_whole_summary_witness :
  exists w',
    invoke logSummaryTool (VObj (<["summary" := VStr "Burst pipe, tech sent"]> ∅)) used_world
    = (Ok (backgroundResult "Summary logged."), w')
    /\ length (read_lines EVENTS_FILE w') = 2.
Proof.
  destruct (logSummary_logs_the_whole_summary
              (<["summary" := VStr "Burst pipe, tech sent"]> ∅)
              "Burst pipe, tech sent" used_world)
    as (w' & Hrun & _ & Hre & _).
  - reflexivity.
  - cbn; lia.
  - reflexivity.
  - exists w'. split; [exact Hrun|]. by rewrite Hre.
Defined.

Lemma gateway_rejection_is_thrown_after_logging_witness :
  exists w',
    sendSms_execute (H := rejecting_runtime) cfg_full
      (mkSmsArgs "+15551234567" "On our way") fresh_world
    = (Throw "HTTP 503", w')
    /\ length (sms_sent (history w')) = 1.
Proof.
  destruct (gateway_rejection_is_thrown_after_logging (H := rejecting_runtime)
              cfg_full (twilio "AC123" "secret") fresh_world) as [Hsms _].
  - reflexivity.
  - reflexivity.
  - destruct (Hsms "+15551234567" "On our way" "HTTP 503") as (w' & Hrun & Hh).
    + split; [reflexivity | cbn; lia].
    + reflexivity.
    + exists w'. split; [exact Hrun|]. by rewrite Hh.
Defined.


Lemma transport_event_is_logged_with_its_type_witness :
  exists w' line,
    emit bridge_session "transport_event"
      (VObj (<["type" := VStr "media"]> ∅)) fresh_world = (Ok tt, w')
    /\ field "evtType" line = Some (JStr "media")
    /\ appended_to EVENTS_FILE (history w') = [line].
Proof.
  destruct (transport_event_is_logged_with_its_type
              (VObj (<["type" := VStr "media"]> ∅)) fresh_world)
    as (w' & line & Hrun & Hh & _ & Htype & _).
  - reflexivity.
  - exists w', line. split; [exact Hrun|]. split.
    + by apply (Htype (<["type" := VStr "media"]> ∅) "media").
    + by rewrite Hh.
Defined.

Lemma startup_names_the_first_missing_variable_witness :
  main ∅ = Exited 1 "Missing env var: ONCALL_PHONE".
Proof.
  destruct (startup_names_the_first_missing_variable ∅) as [Hfirst _].
  apply Hfirst. reflexivity.
Defined.

Lemma gateway_configured_iff_all_three_set_witness :
  gateway_configured cfg_full = Some (twilio "AC123" "secret")
  /\ env_full !! "TWILIO_FROM_NUMBER" = Some "+15550002222".
Proof.
  destruct (gateway_configured_iff_all_three_set env_full cfg_full) as [_ Hval].
  - reflexivity.
  - split; [reflexivity|].
    by destruct (Hval (twilio "AC123" "secret") eq_refl) as (_ & _ & Hfrom).
Defined.
End MoreWitnesses.

(* ===================================================================== *)
(** ** The data directory, leads in sequence, the voice webhook *)
(* ===================================================================== *)

Section MoreStore.
Context `{Runtime}.

(** X15.  On working storage [ensureDataDir] leaves the data directory
    and leads.jsonl in place without changing a line of either store, does
    not create events.jsonl, and a second call right after changes
    nothing at all. *)
Theorem ensureDataDir_sets_up_once (w : World) :
  storage_ok w = true ->
  exists w1,
    ensureDataDir w = (Ok tt, w1)
    /\ is_dir DATA_DIR w1 = true
    /\ (exists ls, fs w1 !! LEADS_FILE = Some (File ls))
    /\ read_lines LEADS_FILE w1 = read_lines LEADS_FILE w
    /\ fs w1 !! EVENTS_FILE = fs w !! EVENTS_FILE
    /\ ensureDataDir w1 = (Ok tt, w1).
Proof.
  intros Hok.
  destruct (ensureDataDir_ok w Hok)
    as (w1 & Hrun & _ & _ & Hdir & Hrl & _ & Hfe & [ls Hfl] & _).
  exists w1. repeat split; try done; [by exists ls|].
  assert (exists_in w1 DATA_DIR = true) as Hex1.
  { unfold is_dir in Hdir. unfold exists_in.
    destruct DATA_DIR; [done|]. by destruct (fs w1 !! _) as [[|?]|]. }
  assert (exists_in w1 LEADS_FILE = true) as Hex2.
  { unfold exists_in. destruct LEADS_FILE eqn:Hp; [done|]. by rewrite Hfl. }
  unfold ensureDataDir, mbind, M_bind, existsSync. rewrite Hex1. cbn [negb].
  unfold mret, M_ret. by rewrite Hex2.
Qed.

Section WithConfig.
Variable cfg : Config.

Lemma storage_ok_counters w u c :
  storage_ok (mkWorld (fs w) (disk_faulty w) u c (history w)) = storage_ok w.
Proof. done. Qed.

(** One accepted call, with what the next one needs to know. *)
Lemma invoke_createLead_ok raw input w :
  parse_object createLead_parameters raw = Some input ->
  storage_ok w = true ->
  exists w',
    invoke (createLeadTool cfg) raw w =
      (Ok (backgroundResult ("Lead stored with id " +:+ randomUUID_at (uuid_draws w))), w')
    /\ read_lines LEADS_FILE w' =
         read_lines LEADS_FILE w ++ [stringify_object (lead_of cfg input w)]
    /\ field "id" (stringify_object (lead_of cfg input w))
       = Some (JStr (randomUUID_at (uuid_draws w)))
    /\ storage_ok w' = true
    /\ uuid_draws w' = S (uuid_draws w).
Proof.
  intros Hp Hok.
  destruct (createLead_execute_ok cfg input w Hok)
    as (w' & Hrun & _ & Hrl & _ & Hok' & Hu & _).
  destruct (lead_assigned_fields cfg input w) as (Fid & _).
  { intros k Hk. by eapply createLead_strips_assigned_keys. }
  exists w'. split; [|done].
  unfold invoke. cbn [parameters decode execute createLeadTool]. by rewrite Hp.
Qed.

(** X16.  Calls of create_lead made one after another on working
    storage, each with arguments the schema accepts, append one Lead each,
    in call order; the n-th of them carries the n-th identifier drawn and
    is confirmed with that identifier, so that the stored identifiers are
    pairwise distinct whenever the drawn ones are. *)
Theorem create_leads_appends_one_lead_per_call (raws : list value) (w : World) :
  Forall (fun raw => is_Some (parse_object createLead_parameters raw)) raws ->
  storage_ok w = true ->
  let ids := (fun i => randomUUID_at (uuid_draws w + i)) <$> seq 0 (length raws) in
  exists w' lines,
    create_leads cfg raws w =
      (Ok ((fun id => backgroundResult ("Lead stored with id " +:+ id)) <$> ids), w')
    /\ read_lines LEADS_FILE w' = read_lines LEADS_FILE w ++ lines
    /\ field "id" <$> lines = (fun id => Some (JStr id)) <$> ids
    /\ storage_ok w' = true
    /\ (NoDup ids -> NoDup (field "id" <$> lines)).
Proof.
  cbn zeta. revert w. induction raws as [|raw raws IH]; intros w Hall Hok.
  - exists w, []. cbn. rewrite app_nil_r. repeat split; try done. intros _. constructor.
  - apply Forall_cons in Hall as [[input Hp] Hall].
    destruct (invoke_createLead_ok raw input w Hp Hok)
      as (w1 & Hrun & Hrl & Fid & Hok1 & Hu).
    destruct (IH w1 Hall Hok1) as (w2 & lines & Hrun2 & Hrl2 & Hids & Hok2 & _).
    assert (((fun i => randomUUID_at (uuid_draws w1 + i)) <$> seq 0 (length raws))
            = ((fun i => randomUUID_at (uuid_draws w + i)) <$> seq 1 (length raws)))
      as Hshift.
    { rewrite <- fmap_S_seq, <- list_fmap_compose. apply list_fmap_ext.
      intros i n _. cbn. f_equal. rewrite Hu. lia. }
    rewrite Hshift in Hrun2, Hids.
    exists w2, (stringify_object (lead_of cfg input w) :: lines).
    assert (field "id" <$> stringify_object (lead_of cfg input w) :: lines
            = (fun id => Some (JStr id)) <$>
              ((fun i => randomUUID_at (uuid_draws w + i)) <$> seq 0 (S (length raws))))
      as Hall_ids.
    { cbn [seq fmap list_fmap]. rewrite Nat.add_0_r, Fid. f_equal. exact Hids. }
    split; [|split; [|split; [|split]]].
    + cbn [create_leads length seq fmap list_fmap]. unfold mbind at 1, M_bind at 1.
      rewrite Hrun. unfold mbind, M_bind. rewrite Hrun2. unfold mret, M_ret.
      by rewrite Nat.add_0_r.
    + by rewrite Hrl2, Hrl, <- app_assoc.
    + exact Hall_ids.
    + exact Hok2.
    + intros Hnd. cbn [length] in Hall_ids |- *. rewrite Hall_ids.
      apply NoDup_fmap_2; [|exact Hnd]. by intros x y [= ->].
Qed.

(** The two ends of a string that white space cannot reach through. *)
Lemma trimEnd_app s t : trimEnd t <> "" -> trimEnd (s +:+ t) = s +:+ trimEnd t.
Proof.
  intros Ht. induction s as [|c s IH]; [done|].
  change (String c s +:+ t) with (String c (s +:+ t)).
  change (String c s +:+ trimEnd t) with (String c (s +:+ trimEnd t)).
  change (trimEnd (String c (s +:+ t)))
    with (match trimEnd (s +:+ t) with
          | EmptyString => if is_white c then EmptyString else String c EmptyString
          | String a r => String c (String a r)
          end).
  rewrite IH. destruct (s +:+ trimEnd t) eqn:Hs; [|done].
  destruct s; [|done]. by destruct Ht.
Qed.

Lemma main_public_host env :
  main env = Running cfg -> PUBLIC_HOST cfg = env !! "PUBLIC_HOST".
Proof.
  unfold main, mbind, boot_bind, mret, boot_ret.
  destruct (mustEnv env "ONCALL_PHONE"); [|done].
  destruct (mustEnv env "OPENAI_API_KEY"); [|done].
  by intros [= <-].
Qed.

(** X17.  The voice webhook answers with content type text/xml and a
    document that begins at the XML declaration and ends at the closing
    Response tag, whatever the host, and names the stream
    wss://<host>/media-stream.  The host is PUBLIC_HOST when that is set
    and non-empty, and otherwise the string form of the request's Host
    header, which is "undefined" for a request without one. *)
Theorem incoming_call_streams_to_the_public_host
        (env : gmap string string) (host_header : value) :
  main env = Running cfg ->
  incoming_call cfg host_header = ("text/xml", twiml_for (stream_host cfg host_header))
  /\ (unset env "PUBLIC_HOST" = false ->
      env !! "PUBLIC_HOST" = Some (stream_host cfg host_header))
  /\ (unset env "PUBLIC_HOST" = true ->
      stream_host cfg host_header = String_ host_header
      /\ (host_header = VUndefined -> stream_host cfg host_header = "undefined")).
Proof.
  intros Hmain. apply main_public_host in Hmain. split; [|split].
  - unfold incoming_call, twiml_for, trim.
    cbn zeta. generalize (stream_host cfg host_header). intros host. f_equal.
    set (P1 := "<?xml version=" +:+ DQ +:+ "1.0" +:+ DQ +:+ " encoding=" +:+ DQ
                 +:+ "UTF-8" +:+ DQ +:+ "?>" +:+ LF +:+
               "<Response>" +:+ LF +:+
               "  <Say>This call may be recorded for quality and service.</Say>" +:+ LF +:+
               "  <Say>OK, you can start talking.</Say>" +:+ LF +:+
               "  <Connect>" +:+ LF +:+
               "    <Stream url=" +:+ DQ +:+ "wss://").
    set (P2 := "/media-stream" +:+ DQ +:+ " />" +:+ LF +:+
               "  </Connect>" +:+ LF +:+ "</Response>" +:+ LF).
    transitivity (trimEnd (P1 +:+ (host +:+ P2))); [reflexivity|].
    assert (trimEnd P2 <> "") as HP2 by (vm_compute; intros Hnil; discriminate Hnil).
    rewrite (trimEnd_app P1 (host +:+ P2)), (trimEnd_app host P2 HP2); [reflexivity|].
    rewrite (trimEnd_app host P2 HP2). destruct host; [exact HP2 | done].
  - unfold unset, stream_host. rewrite Hmain.
    destruct (env !! "PUBLIC_HOST") as [h|]; [|done]. by intros ->.
  - unfold unset, stream_host. rewrite Hmain.
    destruct (env !! "PUBLIC_HOST") as [h|].
    + intros ->. split; [done|]. by intros ->.
    + intros _. split; [done|]. by intros ->.
Qed.
End WithConfig.
End MoreStore.

Section MoreStoreWitnesses.
#[local] Existing Instance Demo.runtime.
Import Demo.

Lemma ensureDataDir_sets_up_once_witness :
  exists w1,
    ensureDataDir fresh_world = (Ok tt, w1)
    /\ fs w1 !! LEADS_FILE = Some (File [])
    /\ fs w1 !! EVENTS_FILE = None.
Proof.
  destruct (ensureDataDir_sets_up_once fresh_world) as (w1 & Hrun & _ & _ & _ & He & _).
  - reflexivity.
  - exists w1. split; [exact Hrun|]. split; [|exact He].
    vm_compute in Hrun. injection Hrun as <-. reflexivity.
Defined.

Lemma create_leads_appends_one_lead_per_call_witness :
  exists w' lines,
    create_leads cfg_minimal [burst_pipe_args; forged_args] fresh_world
    = (Ok [backgroundResult "Lead stored with id uuid-0";
           backgroundResult "Lead stored with id uuid-1"], w')
    /\ read_lines LEADS_FILE w' = lines
    /\ field "id" <$> lines = [Some (JStr "uuid-0"); Some (JStr "uuid-1")].
Proof.
  destruct (create_leads_appends_one_lead_per_call cfg_minimal
              [burst_pipe_args; forged_args] fresh_world)
    as (w' & lines & Hrun & Hrl & Hids & _).
  - repeat constructor; vm_compute; eauto.
  - reflexivity.
  - exists w', lines. split; [exact Hrun|]. split; [exact Hrl|]. exact Hids.
Defined.

Lemma incoming_call_streams_to_the_public_host_witness :
  incoming_call cfg_minimal VUndefined = ("text/xml", twiml_for "undefined").
Proof.
  destruct (incoming_call_streams_to_the_public_host cfg_minimal env_minimal VUndefined)
    as (Hbody & _ & Hfallback).
  - reflexivity.
  - rewrite Hbody. destruct Hfallback as [_ ->]; reflexivity.
Defined.
End MoreStoreWitnesses.
